(** * Item service of the FastAPI CRUD lab: a shallow embedding

    The development follows [backend/server.py].  The request handlers of
    the service ([create_item], [get_items], [get_item], [update_item],
    [delete_item], [get_item_statistics]) are written in a small state and
    exception monad over the items collection of the document store.

    Conventions of the embedding:
    - Python [int] is [Z]; Python [float] is idealised as an exact rational
      [Q] (no binary rounding, no NaN, no infinities);
    - Python [str] is [string]; one [ascii] stands for one character, and
      case folding is the one of the ASCII letters;
    - a [dict] (request dump, stored document, update document, response) is
      a [gmap string value];
    - [datetime.now(timezone.utc)] and [uuid.uuid4()] are inputs of the
      handlers; a datetime is its number of microseconds since the epoch;
    - every [await] on a store call is a point where other requests may run:
      the world carries the list of their effects on the collection. *)

From Stdlib Require Import ZArith QArith Qround String Ascii List Lia.
From stdpp Require Import gmap strings list fin_maps.

Local Open Scope string_scope.
#[local] Set Warnings "-register-all".

(** ** Values and documents *)

(** Python / BSON values that occur in the service.  [VIso t] is the text
    [d.isoformat()] of the aware datetime [d = VDatetime t]: the text is kept
    symbolically, since [datetime.fromisoformat] inverts [isoformat].  A
    [VStr] in a timestamp field is a text that is not such a rendering. *)
Inductive value : Type :=
| VNone
| VStr (s : string)
| VInt (z : Z)
| VFloat (q : Q)
| VIso (t : Z)
| VDatetime (t : Z)
| VObjectId (n : nat)
| VList (l : list value).

Abbreviation doc := (gmap string value).

(** [isinstance(v, str)] *)
Definition is_str (v : option value) : bool :=
  match v with
  | Some (VStr _) | Some (VIso _) => true
  | _ => false
  end.

(** Python truthiness, as used by [if search:], [if c] and [if not item]. *)
Definition truthy (v : value) : bool :=
  match v with
  | VNone => false
  | VStr s => negb (String.eqb s "")
  | VInt z => negb (z =? 0)%Z
  | VFloat q => negb (Qeq_bool q 0)
  | VList l => match l with [] => false | _ => true end
  | VIso _ | VDatetime _ | VObjectId _ => true
  end.

(** ** Outcomes of a handler *)

(** A handler returns, raises [HTTPException(status_code, detail)], or
    leaves the fragment of the store's behaviour that is modelled here
    ([Unmodelled]). An exception that no handler catches is answered by the
    framework with status 500. *)
Inductive outcome (A : Type) : Type :=
| Success (a : A)
| HTTPException (status_code : Z) (detail : string)
| Unmodelled.
Arguments Success {A} a.
Arguments HTTPException {A} status_code detail.
Arguments Unmodelled {A}.

Definition unhandled {A} (exn : string) : outcome A := HTTPException 500 exn.

(** The error taxonomy of the interface: 400 and 422 are validation
    errors, 404 is not-found, 500 and 503 are internal errors. *)
Inductive error_kind : Type := ValidationError | NotFound | InternalError.

Definition error_of {A} (o : outcome A) : option error_kind :=
  match o with
  | HTTPException c _ =>
      if ((c =? 400) || (c =? 422))%Z then Some ValidationError
      else if (c =? 404)%Z then Some NotFound
      else if ((c =? 500) || (c =? 503))%Z then Some InternalError
      else None
  | _ => None
  end.

Definition is_success {A} (o : outcome A) : bool :=
  match o with Success _ => true | _ => false end.

(** ** Regular expressions of the store

    The store evaluates [{"$regex": p, "$options": "i"}] with a PCRE
    engine. The fragment modelled here has literals, [.], [^], [$] and
    top-level alternation [|]; a pattern that uses another metacharacter
    is outside the fragment. *)
Module Regex.

Inductive atom : Type :=
| Lit (c : ascii)
| Dot
| Caret
| Dollar.

Abbreviation branch := (list atom).

Definition newline : ascii := ascii_of_nat 10.

(** Metacharacters that take the pattern out of the fragment. *)
Definition beyond (c : ascii) : bool :=
  existsb (Ascii.eqb c) (list_ascii_of_string "\*+?()[]{}").

Definition metachar (c : ascii) : bool :=
  beyond c || existsb (Ascii.eqb c) (list_ascii_of_string ".^$|").

(** [parse p cur] reads [p]; [cur] is the current branch, reversed. *)
Fixpoint parse (p : string) (cur : branch) : option (list branch) :=
  match p with
  | EmptyString => Some [rev cur]
  | String c p' =>
      if beyond c then None
      else if Ascii.eqb c "|" then
        match parse p' [] with
        | Some bs => Some (rev cur :: bs)
        | None => None
        end
      else if Ascii.eqb c "." then parse p' (Dot :: cur)
      else if Ascii.eqb c "^" then parse p' (Caret :: cur)
      else if Ascii.eqb c "$" then parse p' (Dollar :: cur)
      else parse p' (Lit c :: cur)
  end.

Definition compile (p : string) : option (list branch) := parse p [].

Definition lower (c : ascii) : ascii :=
  let n := nat_of_ascii c in
  if (65 <=? n)%nat && (n <=? 90)%nat then ascii_of_nat (n + 32) else c.

Definition same_char (caseless : bool) (a b : ascii) : bool :=
  if caseless then Ascii.eqb (lower a) (lower b) else Ascii.eqb a b.

(** [$] holds at the end of the subject and before a final newline. *)
Definition at_end (s : string) : bool :=
  match s with
  | EmptyString => true
  | String c EmptyString => Ascii.eqb c newline
  | _ => false
  end.

(** Match a branch at the current position; [at_start] tells whether the
    position is the start of the subject. *)
Fixpoint match_here (caseless : bool) (b : branch) (at_start : bool) (s : string) : bool :=
  match b with
  | [] => true
  | Lit c :: b' =>
      match s with
      | String x s' => same_char caseless c x && match_here caseless b' false s'
      | EmptyString => false
      end
  | Dot :: b' =>
      match s with
      | String x s' => negb (Ascii.eqb x newline) && match_here caseless b' false s'
      | EmptyString => false
      end
  | Caret :: b' => at_start && match_here caseless b' at_start s
  | Dollar :: b' => at_end s && match_here caseless b' at_start s
  end.

(** Unanchored search: some branch matches at some position. *)
Fixpoint search_from (caseless : bool) (bs : list branch) (at_start : bool) (s : string) : bool :=
  existsb (fun b => match_here caseless b at_start s) bs
  || match s with
     | EmptyString => false
     | String _ s' => search_from caseless bs false s'
     end.

Definition search (caseless : bool) (bs : list branch) (s : string) : bool :=
  search_from caseless bs true s.

End Regex.

(** [options] contains the flag [i]. *)
Definition caseless_option (options : string) : bool :=
  existsb (Ascii.eqb "i") (list_ascii_of_string options).

(** ** Query filters *)

(** A condition of a filter dict: [{"id": v}] is an equality with a string,
    [{"$regex": p, "$options": o}] a regular-expression condition. *)
Inductive cond : Type :=
| CEq (s : string)
| CRegex (pattern options : string).

Abbreviation query_filter := (gmap string cond).

Definition cond_supported (c : cond) : bool :=
  match c with
  | CEq _ => true
  | CRegex p _ => match Regex.compile p with Some _ => true | None => false end
  end.

(** Every pattern of the filter is inside the modelled fragment. *)
Definition filter_supported (f : query_filter) : bool :=
  forallb (fun kc => cond_supported kc.2) (map_to_list f).

(** A condition on a field holds of the field's value; a regular
    expression only matches a field that holds a string. *)
Definition cond_holds (c : cond) (v : option value) : bool :=
  match c, v with
  | CEq s, Some (VStr s') => String.eqb s s'
  | CRegex p o, Some (VStr s') =>
      match Regex.compile p with
      | Some bs => Regex.search (caseless_option o) bs s'
      | None => false
      end
  | _, _ => false
  end.

Definition matches (f : query_filter) (d : doc) : bool :=
  forallb (fun kc => cond_holds kc.2 (d !! kc.1)) (map_to_list f).

(** ** The world: the items collection and the other requests *)

Record world : Type := World {
  items : list doc;                         (* db.items, in natural order *)
  next_oid : nat;                           (* source of [_id] values *)
  others : list (list doc -> list doc)      (* effects of concurrent requests *)
}.

Definition M (A : Type) : Type := world -> outcome A * world.

Definition ret {A} (a : A) : M A := fun w => (Success a, w).

Definition bind {A B} (m : M A) (k : A -> M B) : M B :=
  fun w =>
    match m w with
    | (Success a, w') => k a w'
    | (HTTPException c d, w') => (HTTPException c d, w')
    | (Unmodelled, w') => (Unmodelled, w')
    end.

Definition raise {A} (status_code : Z) (detail : string) : M A :=
  fun w => (HTTPException status_code detail, w).

Definition unmodelled {A} : M A := fun w => (Unmodelled, w).

Declare Scope handler_scope.
Delimit Scope handler_scope with handler.
Notation "x <- m ;; k" := (bind m (fun x => k))
  (at level 100, m at next level, right associativity) : handler_scope.
Notation "m ;;; k" := (bind m (fun _ => k))
  (at level 100, right associativity) : handler_scope.
Local Open Scope handler_scope.

(** An [await] on a store call: the next concurrent effect, if any, is
    applied to the collection before the call is served. *)
Definition await (w : world) : world :=
  match others w with
  | [] => w
  | f :: rest => World (f (items w)) (next_oid w) rest
  end.

(** Projection [{"_id": 0}]. *)
Definition project (d : doc) : doc := delete "_id" d.

(** ** Store calls *)

(** [db.items.find_one(f, {"_id": 0})] *)
Definition find_one (f : query_filter) : M (option doc) := fun w =>
  let w := await w in
  if filter_supported f
  then (Success (project <$> List.find (matches f) (items w)), w)
  else (Unmodelled, w).

(** [db.items.insert_one(d)]: the store adds an [_id]. *)
Definition insert_one (d : doc) : M unit := fun w =>
  let w := await w in
  (Success tt,
   World (items w ++ [<["_id" := VObjectId (next_oid w)]> d]) (S (next_oid w)) (others w)).

(** Apply [g] to the first document matching [f]. *)
Fixpoint update_first (f : query_filter) (g : doc -> doc) (l : list doc) : list doc :=
  match l with
  | [] => []
  | d :: l' => if matches f d then g d :: l' else d :: update_first f g l'
  end.

(** [db.items.update_one(f, {"$set": s})] *)
Definition update_one (f : query_filter) (s : doc) : M unit := fun w =>
  let w := await w in
  if filter_supported f
  then (Success tt, World (update_first f (fun d => s ∪ d) (items w)) (next_oid w) (others w))
  else (Unmodelled, w).

(** Remove the first document matching [f]; also the number removed. *)
Fixpoint delete_first (f : query_filter) (l : list doc) : list doc * Z :=
  match l with
  | [] => ([], 0%Z)
  | d :: l' =>
      if matches f d then (l', 1%Z)
      else let '(r, n) := delete_first f l' in (d :: r, n)
  end.

(** [db.items.delete_one(f)], returning [result.deleted_count]. *)
Definition delete_one (f : query_filter) : M Z := fun w =>
  let w := await w in
  if filter_supported f
  then let '(r, n) := delete_first f (items w) in
       (Success n, World r (next_oid w) (others w))
  else (Unmodelled, w).

(** [db.items.count_documents(f)] *)
Definition count_documents (f : query_filter) : M Z := fun w =>
  let w := await w in
  if filter_supported f
  then (Success (Z.of_nat (length (List.filter (matches f) (items w)))), w)
  else (Unmodelled, w).

(** [db.items.find(f, {"_id": 0}).skip(skip).limit(limit).to_list(length)].
    The cursor is served by one store round trip. *)
Definition find_page (f : query_filter) (skip limit length : Z) : M (list doc) := fun w =>
  let w := await w in
  if filter_supported f
  then (Success (take (Z.to_nat length)
                   (take (Z.to_nat limit)
                      (drop (Z.to_nat skip)
                         (project <$> List.filter (matches f) (items w))))), w)
  else (Unmodelled, w).

(** [db.items.distinct(field)] and [db.items.aggregate(pipeline)] are
    defined with the statistics endpoint below. *)

(** ** Pydantic models *)

(** A field of a JSON request body: absent, [null], a value of the type
    the field accepts, or a value of another type. *)
Inductive supplied (A : Type) : Type :=
| Absent
| Null
| Given (a : A)
| IllTyped.
Arguments Absent {A}.
Arguments Null {A}.
Arguments Given {A} a.
Arguments IllTyped {A}.

Module Body.
Record t : Type := Make {
  name : supplied string;
  description : supplied string;
  price : supplied Q;
  quantity : supplied Z;
  category : supplied string
}.
End Body.

(** Constraints of [Field(...)]. *)
Definition min_length (n : nat) (s : string) : bool := (n <=? String.length s)%nat.
Definition max_length (n : nat) (s : string) : bool := (String.length s <=? n)%nat.
Definition gt (bound : Q) (q : Q) : bool := negb (Qle_bool q bound).
Definition ge (bound : Z) (z : Z) : bool := (bound <=? z)%Z.

Definition name_ok (s : string) : bool := min_length 1 s && max_length 100 s.
Definition description_ok (s : string) : bool := max_length 500 s.
Definition price_ok (q : Q) : bool := gt 0 q.
Definition quantity_ok (z : Z) : bool := ge 0 z.
Definition category_ok (s : string) : bool := max_length 50 s.

(** A required field ([...]) of a non-optional type. *)
Definition required {A} (ok : A -> bool) (x : supplied A) : option A :=
  match x with
  | Given a => if ok a then Some a else None
  | _ => None
  end.

(** An [Optional[...]] field with default [None]. *)
Definition optional {A} (ok : A -> bool) (x : supplied A) : option (option A) :=
  match x with
  | Absent | Null => Some None
  | Given a => if ok a then Some (Some a) else None
  | IllTyped => None
  end.

Definition dump_str (o : option string) : value :=
  match o with Some s => VStr s | None => VNone end.

(** [ItemCreate] has the fields of [ItemBase]. *)
Module ItemCreate.
Record t : Type := Make {
  name : string;
  description : option string;
  price : Q;
  quantity : Z;
  category : option string
}.

Definition validate (b : Body.t) : option t :=
  n ← required name_ok (Body.name b);
  d ← optional description_ok (Body.description b);
  p ← required price_ok (Body.price b);
  q ← required quantity_ok (Body.quantity b);
  c ← optional category_ok (Body.category b);
  Some (Make n d p q c).

Definition model_dump (i : t) : doc :=
  <["name" := VStr (name i)]>
  (<["description" := dump_str (description i)]>
  (<["price" := VFloat (price i)]>
  (<["quantity" := VInt (quantity i)]>
  (<["category" := dump_str (category i)]> ∅)))).
End ItemCreate.

Module ItemUpdate.
Record t : Type := Make {
  name : option string;
  description : option string;
  price : option Q;
  quantity : option Z;
  category : option string
}.

Definition validate (b : Body.t) : option t :=
  n ← optional name_ok (Body.name b);
  d ← optional description_ok (Body.description b);
  p ← optional price_ok (Body.price b);
  q ← optional quantity_ok (Body.quantity b);
  c ← optional category_ok (Body.category b);
  Some (Make n d p q c).

Definition model_dump (u : t) : doc :=
  <["name" := dump_str (name u)]>
  (<["description" := dump_str (description u)]>
  (<["price" := from_option VFloat VNone (price u)]>
  (<["quantity" := from_option VInt VNone (quantity u)]>
  (<["category" := dump_str (category u)]> ∅)))).
End ItemUpdate.

(** Validation of one field of a model built from a dict. *)
Inductive checked (A : Type) : Type :=
| Valid (a : A)
| Invalid
| Beyond.   (* a coercion of the library that is not modelled *)
Arguments Valid {A} a.
Arguments Invalid {A}.
Arguments Beyond {A}.

Definition check_bind {A B} (c : checked A) (k : A -> checked B) : checked B :=
  match c with
  | Valid a => k a
  | Invalid => Invalid
  | Beyond => Beyond
  end.

Definition guard {A} (ok : A -> bool) (a : A) : checked A :=
  if ok a then Valid a else Invalid.

Definition check_str (ok : string -> bool) (v : option value) : checked string :=
  match v with
  | Some (VStr s) => guard ok s
  | Some (VIso _) => Beyond
  | _ => Invalid
  end.

Definition check_opt_str (ok : string -> bool) (v : option value) : checked (option string) :=
  match v with
  | None | Some VNone => Valid None
  | Some (VStr s) => check_bind (guard ok s) (fun s => Valid (Some s))
  | Some (VIso _) => Beyond
  | _ => Invalid
  end.

Definition check_float (ok : Q -> bool) (v : option value) : checked Q :=
  match v with
  | Some (VFloat q) => guard ok q
  | Some (VInt z) => guard ok (inject_Z z)
  | Some (VStr _) | Some (VIso _) => Beyond
  | _ => Invalid
  end.

Definition check_int (ok : Z -> bool) (v : option value) : checked Z :=
  match v with
  | Some (VInt z) => guard ok z
  | Some (VFloat q) =>
      if Qeq_bool q (inject_Z (Qfloor q)) then guard ok (Qfloor q) else Invalid
  | Some (VStr _) | Some (VIso _) => Beyond
  | _ => Invalid
  end.

(** A datetime field takes a datetime or its ISO text. *)
Definition check_datetime (v : option value) : checked Z :=
  match v with
  | Some (VDatetime t) | Some (VIso t) => Valid t
  | Some (VStr _) | Some (VInt _) | Some (VFloat _) => Beyond
  | _ => Invalid
  end.

Module Item.
Record t : Type := Make {
  name : string;
  description : option string;
  price : Q;
  quantity : Z;
  category : option string;
  id : string;
  created_at : Z;
  updated_at : Z
}.

(** The values of the three [default_factory] fields, when the caller
    has them: [uuid4()] and two readings of the clock. *)
Record factories : Type := Factories {
  uuid4 : string;
  now_created : Z;
  now_updated : Z
}.

Definition with_default {A} (v : option value) (dflt : option A) (c : checked A) : checked A :=
  match v, dflt with
  | None, Some a => Valid a
  | None, None => Beyond
  | Some _, _ => c
  end.

(** [Item] built from the keyword dict [d]; [extra="ignore"]. *)
Definition validate (d : doc) (f : option factories) : checked t :=
  check_bind (check_str name_ok (d !! "name")) (fun n =>
  check_bind (check_opt_str description_ok (d !! "description")) (fun ds =>
  check_bind (check_float price_ok (d !! "price")) (fun p =>
  check_bind (check_int quantity_ok (d !! "quantity")) (fun q =>
  check_bind (check_opt_str category_ok (d !! "category")) (fun c =>
  check_bind (with_default (d !! "id") (uuid4 <$> f)
                (check_str (fun _ => true) (d !! "id"))) (fun i =>
  check_bind (with_default (d !! "created_at") (now_created <$> f)
                (check_datetime (d !! "created_at"))) (fun ca =>
  check_bind (with_default (d !! "updated_at") (now_updated <$> f)
                (check_datetime (d !! "updated_at"))) (fun ua =>
  Valid (Make n ds p q c i ca ua))))))))).

Definition model_dump (i : t) : doc :=
  <["name" := VStr (name i)]>
  (<["description" := dump_str (description i)]>
  (<["price" := VFloat (price i)]>
  (<["quantity" := VInt (quantity i)]>
  (<["category" := dump_str (category i)]>
  (<["id" := VStr (id i)]>
  (<["created_at" := VDatetime (created_at i)]>
  (<["updated_at" := VDatetime (updated_at i)]> ∅))))))).
End Item.

Module PaginatedItems.
Record t : Type := Make {
  items : list Item.t;
  total : Z;
  page : Z;
  page_size : Z;
  total_pages : Z
}.
End PaginatedItems.

Record MessageResponse : Type := MakeMessageResponse {
  message : string;
  detail : option string
}.

(** ** Helper functions and endpoints *)

(** [datetime.fromisoformat(v)] on a value that is a [str]. *)
Definition fromisoformat (v : option value) : M value := fun w =>
  match v with
  | Some (VIso t) => (Success (VDatetime t), w)
  | _ => (unhandled "ValueError", w)
  end.

Definition serialize_item (item_dict : doc) : M doc :=
  item_dict <- (if is_str (item_dict !! "created_at")
                then (t <- fromisoformat (item_dict !! "created_at") ;;
                      ret (<["created_at" := t]> item_dict))
                else ret item_dict) ;;
  item_dict <- (if is_str (item_dict !! "updated_at")
                then (t <- fromisoformat (item_dict !! "updated_at") ;;
                      ret (<["updated_at" := t]> item_dict))
                else ret item_dict) ;;
  ret item_dict.

(** [response_model=Item] applied to a returned dict. *)
Definition respond_item (d : doc) : M Item.t :=
  match Item.validate d None with
  | Valid i => ret i
  | Invalid => fun w => (unhandled "ResponseValidationError", w)
  | Beyond => unmodelled
  end.

Definition by_id (item_id : string) : query_filter := {["id" := CEq item_id]}.

Definition not_found (item_id : string) : string :=
  "Item with ID '" ++ item_id ++ "' not found".

(** [not item] for the result of [find_one]. *)
Definition falsy_doc (item : option doc) : bool :=
  match item with
  | None => true
  | Some d => bool_decide (dom d = ∅)
  end.

Definition create_item (item : ItemCreate.t) (f : Item.factories) : M Item.t :=
  match Item.validate (ItemCreate.model_dump item) (Some f) with
  | Valid item_obj =>
      let doc := Item.model_dump item_obj in
      let doc := <["created_at" := VIso (Item.created_at item_obj)]> doc in
      let doc := <["updated_at" := VIso (Item.updated_at item_obj)]> doc in
      insert_one doc ;;;
      ret item_obj
  | Invalid => fun w => (unhandled "ValidationError", w)
  | Beyond => unmodelled
  end.

Fixpoint serialize_all (l : list doc) : M (list doc) :=
  match l with
  | [] => ret []
  | d :: l' => d' <- serialize_item d ;; r <- serialize_all l' ;; ret (d' :: r)
  end.

(** [items: List[Item]] of [PaginatedItems(...)]. *)
Fixpoint validate_items (l : list doc) : checked (list Item.t) :=
  match l with
  | [] => Valid []
  | d :: l' =>
      check_bind (Item.validate d None) (fun i =>
      check_bind (validate_items l') (fun r => Valid (i :: r)))
  end.

Definition supplied_str (s : option string) : bool :=
  match s with Some s => truthy (VStr s) | None => false end.

Definition build_filter (search category : option string) : query_filter :=
  let query_filter : query_filter := ∅ in
  let query_filter :=
    match search with
    | Some s => if truthy (VStr s) then <["name" := CRegex s "i"]> query_filter
                else query_filter
    | None => query_filter
    end in
  match category with
  | Some c => if truthy (VStr c)
              then <["category" := CRegex ("^" ++ c ++ "$") "i"]> query_filter
              else query_filter
  | None => query_filter
  end.

Definition get_items (page page_size : Z) (search category : option string)
  : M PaginatedItems.t :=
  let query_filter := build_filter search category in
  total <- count_documents query_filter ;;
  let skip := ((page - 1) * page_size)%Z in
  let total_pages :=
    if (total >? 0)%Z then ((total + page_size - 1) / page_size)%Z else 1%Z in
  items_list <- find_page query_filter skip page_size page_size ;;
  serialized_items <- serialize_all items_list ;;
  match validate_items serialized_items with
  | Valid its => ret (PaginatedItems.Make its total page page_size total_pages)
  | Invalid => fun w => (unhandled "ValidationError", w)
  | Beyond => unmodelled
  end.

Definition get_item (item_id : string) : M doc :=
  item <- find_one (by_id item_id) ;;
  match item with
  | Some d => if falsy_doc item then raise 404 (not_found item_id)
              else serialize_item d
  | None => raise 404 (not_found item_id)
  end.

(** [{k: v for k, v in d.items() if v is not None}] *)
Definition is_none (v : value) : bool :=
  match v with VNone => true | _ => false end.

Definition drop_none (d : doc) : doc :=
  filter (fun kv : string * value => negb (is_none kv.2)) d.

Definition update_item (item_id : string) (item_update : ItemUpdate.t) (now : Z)
  : M doc :=
  existing_item <- find_one (by_id item_id) ;;
  if falsy_doc existing_item then raise 404 (not_found item_id)
  else
    let update_data := drop_none (ItemUpdate.model_dump item_update) in
    if bool_decide (dom update_data = ∅)
    then raise 400 "No valid fields provided for update"
    else
      let update_data := <["updated_at" := VIso now]> update_data in
      update_one (by_id item_id) update_data ;;;
      updated_item <- find_one (by_id item_id) ;;
      match updated_item with
      | Some d => serialize_item d
      | None => fun w => (unhandled "AttributeError", w)
      end.

Definition delete_item (item_id : string) : M MessageResponse :=
  existing_item <- find_one (by_id item_id) ;;
  if falsy_doc existing_item then raise 404 (not_found item_id)
  else
    deleted_count <- delete_one (by_id item_id) ;;
    if (deleted_count =? 0)%Z then raise 500 "Failed to delete item"
    else ret (MakeMessageResponse "Item deleted successfully"
                (Some ("Item ID: " ++ item_id))).

(** ** Aggregation *)

Definition is_number (v : value) : bool :=
  match v with VInt _ | VFloat _ => true | _ => false end.

Definition to_Q (v : value) : Q :=
  match v with
  | VInt z => inject_Z z
  | VFloat q => q
  | _ => 0
  end.

(** Addition of two numbers: integers stay integers. *)
Definition add_num (a b : value) : value :=
  match a, b with
  | VInt x, VInt y => VInt (x + y)
  | _, _ => VFloat (to_Q a + to_Q b)
  end.

Definition mul_num (a b : value) : value :=
  match a, b with
  | VInt x, VInt y => VInt (x * y)
  | _, _ => VFloat (to_Q a * to_Q b)
  end.

(** [$sum]: non-numeric and missing values are ignored. *)
Definition acc_sum (l : list (option value)) : value :=
  fold_left (fun acc v =>
               match v with
               | Some x => if is_number x then add_num acc x else acc
               | None => acc
               end) l (VInt 0).

(** [$multiply]: null when an operand is null or missing, an error of the
    store ([None]) when an operand is not a number. *)
Definition multiply (a b : option value) : option (option value) :=
  match a, b with
  | None, _ | _, None | Some VNone, _ | _, Some VNone => Some None
  | Some x, Some y =>
      if is_number x && is_number y then Some (Some (mul_num x y)) else None
  end.

Definition numbers (l : list (option value)) : list value :=
  omap (fun v => match v with
                 | Some x => if is_number x then Some x else None
                 | None => None
                 end) l.

(** [$avg]: the mean of the numeric values, null when there is none. *)
Definition acc_avg (l : list (option value)) : value :=
  match numbers l with
  | [] => VNone
  | ns => VFloat (fold_left Qplus (to_Q <$> ns) 0%Q / inject_Z (Z.of_nat (length ns)))
  end.

Definition present (l : list (option value)) : list value :=
  omap (fun v => match v with
                 | Some VNone | None => None
                 | Some x => Some x
                 end) l.

(** [$min] and [$max] over numbers; null when every value is null or
    missing.  The order of the store between values of other types is not
    modelled ([None]). *)
Definition acc_extreme (better : Q -> Q -> bool) (l : list (option value)) : option value :=
  let vs := present l in
  if forallb is_number vs then
    Some (match vs with
          | [] => VNone
          | v :: vs' => fold_left (fun m x => if better (to_Q x) (to_Q m) then x else m) vs' v
          end)
  else None.

Definition Qlt_bool (a b : Q) : bool := negb (Qle_bool b a).

Definition acc_min := acc_extreme Qlt_bool.
Definition acc_max := acc_extreme (fun a b => Qlt_bool b a).

Fixpoint all_some {A} (l : list (option A)) : option (list A) :=
  match l with
  | [] => Some []
  | Some a :: l' => match all_some l' with Some r => Some (a :: r) | None => None end
  | None :: _ => None
  end.

(** The [$group] stage of the statistics pipeline over the whole
    collection, read with [to_list(length=1)]: one group document, none
    for an empty collection. *)
Definition aggregate_stats : M (list doc) := fun w =>
  let w := await w in
  let ds := items w in
  match ds with
  | [] => (Success [], w)
  | _ =>
      match all_some ((fun d => multiply (d !! "price") (d !! "quantity")) <$> ds) with
      | None => (unhandled "OperationFailure", w)
      | Some products =>
          let prices := (fun d => d !! "price") <$> ds in
          match acc_min prices, acc_max prices with
          | Some mn, Some mx =>
              (Success
                 [ <["_id" := VNone]>
                   (<["total_quantity" := acc_sum ((fun d => d !! "quantity") <$> ds)]>
                   (<["total_value" := acc_sum products]>
                   (<["average_price" := acc_avg prices]>
                   (<["min_price" := mn]>
                   (<["max_price" := mx]> ∅))))) ], w)
          | _, _ => (Unmodelled, w)
          end
      end
  end.

(** Equality of values as the store sees it: numbers compare by value. *)
Fixpoint value_eqb (a b : value) : bool :=
  match a, b with
  | VNone, VNone => true
  | VStr s, VStr s' => String.eqb s s'
  | VIso t, VIso t' => (t =? t')%Z
  | VDatetime t, VDatetime t' => (t =? t')%Z
  | VObjectId n, VObjectId n' => (n =? n')%nat
  | VList l, VList l' =>
      (fix go (l l' : list value) : bool :=
         match l, l' with
         | [], [] => true
         | x :: xs, y :: ys => value_eqb x y && go xs ys
         | _, _ => false
         end) l l'
  | (VInt _ | VFloat _), (VInt _ | VFloat _) => Qeq_bool (to_Q a) (to_Q b)
  | _, _ => false
  end.

(** Keep the first occurrence of every value. *)
Fixpoint distinct_values (seen l : list value) : list value :=
  match l with
  | [] => []
  | v :: l' =>
      if existsb (value_eqb v) seen then distinct_values seen l'
      else v :: distinct_values (v :: seen) l'
  end.

(** [db.items.distinct(field)]: the values of the field, the elements of
    an array counted one by one; a document without the field gives
    none. The store fixes no order; the model lists first occurrences. *)
Definition distinct (field : string) : M (list value) := fun w =>
  let w := await w in
  let vs := omap (fun d : doc => d !! field) (items w) in
  let vs := mbind (M := list) (fun v => match v with VList l => l | _ => [v] end) vs in
  (Success (distinct_values [] vs), w).

(** ** Statistics *)

Definition round_half_even (x : Q) : Z :=
  let f := Qfloor x in
  match Qcompare (x - inject_Z f) (1 # 2) with
  | Lt => f
  | Gt => (f + 1)%Z
  | Eq => if Z.even f then f else (f + 1)%Z
  end.

(** [round(v, 2)] *)
Definition round2 (v : value) : M value := fun w =>
  match v with
  | VFloat q => (Success (VFloat (inject_Z (round_half_even (q * 100)) / 100)), w)
  | VInt z => (Success (VInt z), w)
  | _ => (unhandled "TypeError", w)
  end.

(** [stats.get(k, 0)] *)
Definition get0 (stats : doc) (k : string) : value := default (VInt 0) (stats !! k).

Definition get_item_statistics : M doc :=
  total_items <- count_documents ∅ ;;
  if (total_items =? 0)%Z then
    ret (<["total_items" := VInt 0]>
         (<["total_quantity" := VInt 0]>
         (<["total_value" := VInt 0]>
         (<["average_price" := VInt 0]>
         (<["categories" := VList []]> ∅)))))
  else
    stats_list <- aggregate_stats ;;
    let stats : doc := match stats_list with s :: _ => s | [] => ∅ end in
    categories <- distinct "category" ;;
    let categories := List.filter truthy categories in
    total_value <- round2 (get0 stats "total_value") ;;
    average_price <- round2 (get0 stats "average_price") ;;
    ret (<["total_items" := VInt total_items]>
         (<["total_quantity" := get0 stats "total_quantity"]>
         (<["total_value" := total_value]>
         (<["average_price" := average_price]>
         (<["min_price" := get0 stats "min_price"]>
         (<["max_price" := get0 stats "max_price"]>
         (<["categories" := VList categories]> ∅))))))).

(** ** The operations of the interface

    An endpoint is the handler behind the validation that the framework
    derives from the handler's signature, and before the response model. *)

Definition unprocessable {A} : M A := raise 422 "Unprocessable Entity".

Definition Create (body : Body.t) (f : Item.factories) : M Item.t :=
  match ItemCreate.validate body with
  | Some item => create_item item f
  | None => unprocessable
  end.

Definition List (page page_size : Z) (search category : option string)
  : M PaginatedItems.t :=
  if ((1 <=? page) && (1 <=? page_size) && (page_size <=? 100))%Z
  then get_items page page_size search category
  else unprocessable.

Definition Get (item_id : string) : M Item.t :=
  d <- get_item item_id ;; respond_item d.

Definition Update (item_id : string) (body : Body.t) (now : Z) : M Item.t :=
  match ItemUpdate.validate body with
  | Some item_update => d <- update_item item_id item_update now ;; respond_item d
  | None => unprocessable
  end.

Definition Delete (item_id : string) : M MessageResponse := delete_item item_id.

Definition Statistics : M doc := get_item_statistics.

(** A world in which no other request runs. *)
Definition alone (ds : list doc) (n : nat) : world := World ds n [].

(** * Vocabulary of the properties *)

(** The document carries the id. *)
Definition has_id (item_id : string) (d : doc) : Prop :=
  d !! "id" = Some (VStr item_id).

(** No two documents of the collection carry the same id. *)
Fixpoint unique_ids (ds : list doc) : Prop :=
  match ds with
  | [] => True
  | d :: ds' => (forall d', d' ∈ ds' -> d' !! "id" ≠ d !! "id") /\ unique_ids ds'
  end.

(** ** Sample data *)

Definition laptop : Body.t :=
  Body.Make (Given "Laptop") (Given "High-performance laptop")
            (Given (99999 # 100)%Q) (Given 10%Z) (Given "Electronics").

Definition laptop_keys : Item.factories := Item.Factories "id-1" 1000 1001.

(** The collection after the laptop has been created in an empty store. *)
Definition shop : world := (Create laptop laptop_keys (alone [] 0)).2.

(** ** Pure readings of the helpers *)

(** One timestamp field of [serialize_item]: [None] stands for the
    [ValueError] of [fromisoformat]. *)
Definition parse_field (k : string) (d : doc) : option doc :=
  if is_str (d !! k) then
    match d !! k with
    | Some (VIso t) => Some (<[k := VDatetime t]> d)
    | _ => None
    end
  else Some d.

Definition serialized (d : doc) : option doc :=
  d ← parse_field "created_at" d; parse_field "updated_at" d.

(** The value of a timestamp field after [serialize_item]. *)
Definition revived (v : option value) : option value :=
  match v with
  | Some (VIso t) => Some (VDatetime t)
  | _ => v
  end.

(** A timestamp field that [serialize_item] accepts. *)
Definition parses (v : option value) : bool :=
  match v with Some (VStr _) => false | _ => true end.

(** The item that [create_item] builds from a validated input. *)
Definition item_of (ic : ItemCreate.t) (f : Item.factories) : Item.t :=
  Item.Make (ItemCreate.name ic) (ItemCreate.description ic) (ItemCreate.price ic)
            (ItemCreate.quantity ic) (ItemCreate.category ic)
            (Item.uuid4 f) (Item.now_created f) (Item.now_updated f).

(** The document that [create_item] hands to the store. *)
Definition stored (it : Item.t) : doc :=
  <["updated_at" := VIso (Item.updated_at it)]>
  (<["created_at" := VIso (Item.created_at it)]> (Item.model_dump it)).

(** The field constraints of [ItemBase] on an item. *)
Definition fields_ok (it : Item.t) : Prop :=
  name_ok (Item.name it) = true
  /\ (forall s, Item.description it = Some s -> description_ok s = true)
  /\ price_ok (Item.price it) = true
  /\ quantity_ok (Item.quantity it) = true
  /\ (forall s, Item.category it = Some s -> category_ok s = true).

(** ** Vocabulary of Update *)

(** The [update_data] of [update_item] before the timestamp is added. *)
Definition update_data (u : ItemUpdate.t) : doc := drop_none (ItemUpdate.model_dump u).

(** No field of the validated update carries a value. *)
Definition nothing_set (u : ItemUpdate.t) : bool :=
  match ItemUpdate.name u, ItemUpdate.description u, ItemUpdate.price u,
        ItemUpdate.quantity u, ItemUpdate.category u with
  | None, None, None, None, None => true
  | _, _, _, _, _ => false
  end.

(** The record that a partial update makes of a record: a field that the
    update carries is replaced, the others are kept, and [updated_at] is
    the time of the update. *)
Definition patched (old : Item.t) (u : ItemUpdate.t) (now : Z) : Item.t :=
  Item.Make
    (default (Item.name old) (ItemUpdate.name u))
    (match ItemUpdate.description u with Some s => Some s | None => Item.description old end)
    (default (Item.price old) (ItemUpdate.price u))
    (default (Item.quantity old) (ItemUpdate.quantity u))
    (match ItemUpdate.category u with Some s => Some s | None => Item.category old end)
    (Item.id old) (Item.created_at old) now.

(** The [$set] document of [update_item]. *)
Definition set_doc (u : ItemUpdate.t) (now : Z) : doc :=
  <["updated_at" := VIso now]> (update_data u).


(** The field of the body is absent or null. *)
Definition unset {A} (x : supplied A) : bool :=
  match x with Absent | Null => true | _ => false end.


Definition all_unset (b : Body.t) : bool :=
  unset (Body.name b) && unset (Body.description b) && unset (Body.price b)
  && unset (Body.quantity b) && unset (Body.category b).

(** The body in which no field is present. *)
Definition no_field : Body.t := Body.Make Absent Absent Absent Absent Absent.



Definition null_as_absent {A} (x : supplied A) : supplied A :=
  match x with Null => Absent | _ => x end.

(** The body with every explicit [null] left out. *)
Definition without_nulls (b : Body.t) : Body.t :=
  Body.Make (null_as_absent (Body.name b)) (null_as_absent (Body.description b))
            (null_as_absent (Body.price b)) (null_as_absent (Body.quantity b))
            (null_as_absent (Body.category b)).

(** ** Vocabulary of the invariant *)

(** The bounds on a persisted record. *)
Definition bounded (d : doc) : Prop :=
  exists p q, d !! "price" = Some (VFloat p) /\ (0 < p)%Q
              /\ d !! "quantity" = Some (VInt q) /\ (0 <= q)%Z.

(** The input gives a field a value outside the field's bounds. *)
Definition breaks_bound (b : Body.t) : Prop :=
  (exists p, Body.price b = Given p /\ ~ (0 < p)%Q)
  \/ (exists q, Body.quantity b = Given q /\ ~ (0 <= q)%Z)
  \/ (exists s, Body.name b = Given s /\ ~ (1 <= String.length s <= 100)%nat)
  \/ (exists s, Body.description b = Given s /\ ~ (String.length s <= 500)%nat)
  \/ (exists s, Body.category b = Given s /\ ~ (String.length s <= 50)%nat).

(** The concurrent requests keep the bounds of the collection. *)
Definition keep_bounds (os : list (list doc -> list doc)) : Prop :=
  Forall (fun g => forall l : list doc, Forall bounded l -> Forall bounded (g l)) os.

(** The invariant of the world. *)
Definition bounds_inv (w : world) : Prop :=
  Forall bounded (items w) /\ keep_bounds (others w).

(** A computation that keeps the invariant. *)
Definition preserves {A} (m : M A) : Prop :=
  forall w, bounds_inv w -> bounds_inv (m w).2.

(** ** Vocabulary of the search *)

Fixpoint casefold (s : string) : string :=
  match s with
  | EmptyString => EmptyString
  | String c s' => String (Regex.lower c) (casefold s')
  end.

Fixpoint prefix_of (p s : string) : bool :=
  match p, s with
  | EmptyString, _ => true
  | String a p', String b s' => Ascii.eqb a b && prefix_of p' s'
  | String _ _, EmptyString => false
  end.

(** [p in s] *)
Fixpoint substring_of (p s : string) : bool :=
  prefix_of p s
  || match s with
     | EmptyString => false
     | String _ s' => substring_of p s'
     end.

(** The name contains the search text, case-insensitively. *)
Definition contains_ci (name search : string) : bool :=
  substring_of (casefold search) (casefold name).

(** The two texts are equal, case-insensitively. *)
Definition equals_ci (a b : string) : bool :=
  String.eqb (casefold a) (casefold b).

(** A text without any metacharacter of regular expressions. *)
Definition plain (s : string) : bool :=
  forallb (fun c => negb (Regex.metachar c)) (list_ascii_of_string s).

(** A second sample item, and the collection that holds both. *)
Definition cable : Body.t :=
  Body.Make (Given "USB cable") Absent (Given (499 # 100)%Q) (Given 3%Z)
            (Given "Under $5").

Definition cable_keys : Item.factories := Item.Factories "id-2" 3000 3001.

Definition shop2 : world := (Create cable cable_keys shop).2.
(** The literal atoms of a text. *)
Definition lits (s : string) : list Regex.atom :=
  Regex.Lit <$> list_ascii_of_string s.

(** The text holds no newline. *)
Definition one_line (s : string) : bool :=
  forallb (fun c => negb (Ascii.eqb c Regex.newline)) (list_ascii_of_string s).

(** ** Vocabulary of the statistics *)













(** The price is a float, the quantity an integer, the category a text
    or null: the shape of every document that the service writes. *)
Definition shaped (d : doc) : bool :=
  match d !! "price", d !! "quantity", d !! "category" with
  | Some (VFloat _), Some (VInt _), Some (VNone | VStr _) => true
  | _, _, _ => false
  end.








(** ** Vocabulary of the further properties *)

(** The record that the service reads from a stored document: the
    document is projected, serialised and passed through the response
    model; [None] when one of the steps fails. *)
Definition read (d : doc) : option Item.t :=
  match serialized (project d) with
  | Some d1 =>
      match Item.validate d1 None with
      | Valid it => Some it
      | _ => None
      end
  | None => None
  end.

Definition readable (d : doc) : Prop := is_Some (read d).

(** The items of a List response; none for an error. *)
Definition page_of (o : outcome PaginatedItems.t) : list Item.t :=
  match o with
  | Success r => PaginatedItems.items r
  | _ => []
  end.

(** The ids of the collection, in order. *)
Definition ids (ds : list doc) : list (option value) :=
  (fun d : doc => d !! "id") <$> ds.


(** The records of a list of documents; [None] when one is unreadable. *)
Fixpoint read_all (l : list doc) : option (list Item.t) :=
  match l with
  | [] => Some []
  | d :: l' =>
      match read d, read_all l' with
      | Some it, Some r => Some (it :: r)
      | _, _ => None
      end
  end.

(** The pages [1 .. n] of size [ps] of a List request, one after the
    other. *)
Definition pages (ps : Z) (search category : option string) (w : world) (n : nat)
  : list Item.t :=
  concat ((fun k => page_of (List (Z.of_nat (S k)) ps search category w).1)
            <$> seq 0 n).

(** ** The test driver of [backend_test.py]

    The counters and the list of items to clean up of
    [FastAPICrudTester]; a request of the driver is a call of the
    endpoint. *)
Module Tester.
Record t : Type := Make {
  tests_run : Z;
  tests_passed : Z;
  created_items : list string
}.

(** [__init__] *)
Definition init : t := Make 0 0 [].

(** [log_result(test_name, success, details)]; the texts are printed
    only. *)
Definition log_result (self : t) (success : bool) : t * bool :=
  let self := Make (tests_run self + 1) (tests_passed self) (created_items self) in
  if success
  then (Make (tests_run self) (tests_passed self + 1) (created_items self), success)
  else (self, success).

(** The [status] of [run_all_tests]. *)
Definition status (self : t) : string :=
  if (tests_passed self =? tests_run self)%Z then "PASS" else "FAIL".

(** The driver after the given results have been logged in turn. *)
Definition logged (results : list bool) (self : t) : t :=
  fold_left (fun self success => (log_result self success).1) results self.

End Tester.

(** * Properties *)

(** ** Filters and store calls *)

Lemma await_alone ds n : await (alone ds n) = alone ds n.
Proof. reflexivity. Qed.

Lemma filter_supported_by_id i : filter_supported (by_id i) = true.
Proof. unfold filter_supported, by_id. by rewrite map_to_list_singleton. Qed.

Lemma matches_by_id i d : matches (by_id i) d = true <-> has_id i d.
Proof.
  unfold matches, by_id, has_id. rewrite map_to_list_singleton. simpl.
  rewrite andb_true_r.
  destruct (d !! "id") as [[]|]; simpl; try (split; [discriminate|congruence]).
  rewrite String.eqb_eq. split; congruence.
Qed.

Lemma matches_by_id_false i d : matches (by_id i) d = false <-> ~ has_id i d.
Proof. rewrite <- matches_by_id. destruct (matches (by_id i) d); naive_solver. Qed.

Lemma find_by_id_None i (ds : list doc) :
  List.find (matches (by_id i)) ds = None <-> forall d, d ∈ ds -> ~ has_id i d.
Proof.
  split.
  - intros H d Hd. apply matches_by_id_false.
    apply (find_none _ _ H). by apply list_elem_of_In.
  - intros H. induction ds as [|d ds IH]; [done|]. simpl.
    destruct (matches (by_id i) d) eqn:E.
    + apply matches_by_id in E. exfalso. apply (H d); [left|done].
    + apply IH. intros d' Hd'. apply H. by right.
Qed.

Lemma find_by_id_Some i (ds : list doc) d :
  List.find (matches (by_id i)) ds = Some d -> d ∈ ds /\ has_id i d.
Proof.
  intros H. apply find_some in H as [H1 H2].
  split; [by apply list_elem_of_In | by apply matches_by_id].
Qed.

Lemma has_id_nonempty i d : has_id i d -> bool_decide (dom (project d) = ∅) = false.
Proof.
  intros H. apply bool_decide_eq_false. intros E.
  assert (Hin : "id" ∈ dom (project d)).
  { apply elem_of_dom. unfold project. rewrite lookup_delete_ne; [|done]. by eexists. }
  rewrite E in Hin. set_solver.
Qed.

(** The existence check of [get_item], [update_item] and [delete_item]. *)
Lemma find_one_by_id i w :
  find_one (by_id i) w
  = (Success (project <$> List.find (matches (by_id i)) (items (await w))), await w).
Proof. unfold find_one. by rewrite filter_supported_by_id. Qed.

Lemma falsy_found i (ds : list doc) :
  falsy_doc (project <$> List.find (matches (by_id i)) ds)
  = match List.find (matches (by_id i)) ds with Some _ => false | None => true end.
Proof.
  destruct (List.find _ ds) as [d|] eqn:E; [|done]. simpl.
  apply find_by_id_Some in E as [_ E]. by apply (has_id_nonempty i).
Qed.

Lemma delete_first_count i (ds : list doc) :
  (delete_first (by_id i) ds).2
  = match List.find (matches (by_id i)) ds with Some _ => 1%Z | None => 0%Z end.
Proof.
  induction ds as [|d ds IH]; [done|]. simpl.
  destruct (matches (by_id i) d); [done|].
  destruct (delete_first (by_id i) ds) as [r k]. simpl in *. done.
Qed.


Lemma delete_first_gone i (ds : list doc) :
  unique_ids ds -> forall d, d ∈ (delete_first (by_id i) ds).1 -> ~ has_id i d.
Proof.
  induction ds as [|d0 ds IH]; simpl; [intros _ d Hd; by apply elem_of_nil in Hd|].
  intros [Hne Hu] d. destruct (matches (by_id i) d0) eqn:E.
  - simpl. intros Hd Hi. apply matches_by_id in E.
    apply (Hne d Hd). unfold has_id in *. congruence.
  - destruct (delete_first (by_id i) ds) as [r k] eqn:Er. simpl in *.
    intros [->|Hd]%elem_of_cons.
    + by apply matches_by_id_false.
    + by apply IH.
Qed.

(** [delete_item], one store call after the other. *)
Lemma delete_item_unfold i w :
  delete_item i w =
  let w1 := await w in
  match List.find (matches (by_id i)) (items w1) with
  | None => (HTTPException 404 (not_found i), w1)
  | Some _ =>
      let w2 := await w1 in
      let r := delete_first (by_id i) (items w2) in
      (if (r.2 =? 0)%Z then HTTPException 500 "Failed to delete item"
       else Success (MakeMessageResponse "Item deleted successfully"
                       (Some ("Item ID: " ++ i))),
       World r.1 (next_oid w2) (others w2))
  end.
Proof.
  unfold delete_item, bind. rewrite find_one_by_id, falsy_found.
  destruct (List.find _ (items (await w))); [|done].
  unfold delete_one, raise, ret. rewrite filter_supported_by_id. simpl.
  destruct (delete_first _ _) as [r k]. simpl. by destruct (k =? 0)%Z.
Qed.

(** ** Delete *)

(** C3. Delete fails with NotFound exactly when no record carries the id
    when the existence check is served; when the check finds a record and
    the delete call that follows removes none, Delete fails with
    InternalError and is not a success; and in a collection with unique
    ids and no concurrent request, repeating a successful Delete yields
    NotFound. *)
Theorem delete_item_errors (item_id : string) (w : world) :
  let checked := items (await w) in
  let deleted_from := items (await (await w)) in
  (error_of (Delete item_id w).1 = Some NotFound
   <-> forall d, d ∈ checked -> ~ has_id item_id d)
  /\ ((exists d, d ∈ checked /\ has_id item_id d) ->
      (forall d, d ∈ deleted_from -> ~ has_id item_id d) ->
      error_of (Delete item_id w).1 = Some InternalError
      /\ is_success (Delete item_id w).1 = false)
  /\ (others w = [] -> unique_ids (items w) ->
      is_success (Delete item_id w).1 = true ->
      error_of (Delete item_id (Delete item_id w).2).1 = Some NotFound).
Proof.
  intros checked deleted_from. unfold Delete.
  rewrite delete_item_unfold. cbv zeta. fold checked. fold deleted_from.
  split; [|split].
  - rewrite <- find_by_id_None.
    destruct (List.find _ checked) eqn:E; simpl; [|done].
    rewrite delete_first_count. destruct (List.find _ deleted_from); simpl; split; done.
  - intros (d & Hd & Hi) Hnone.
    destruct (List.find _ checked) eqn:E.
    + simpl. rewrite delete_first_count.
      apply find_by_id_None in Hnone. by rewrite Hnone.
    + exfalso. rewrite find_by_id_None in E. by apply (E d).
  - intros Ho Hu.
    assert (Hw : await w = w) by (unfold await; by rewrite Ho).
    subst checked deleted_from. rewrite !Hw.
    destruct (List.find _ (items w)) eqn:E; simpl; [|done].
    rewrite delete_first_count, E. simpl. intros _.
    rewrite delete_item_unfold. cbv zeta.
    set (w' := await _).
    assert (Hi : items w' = (delete_first (by_id item_id) (items w)).1).
    { subst w'. unfold await. simpl. by rewrite Ho. }
    assert (Hn : List.find (matches (by_id item_id)) (items w') = None).
    { apply find_by_id_None. rewrite Hi. by apply delete_first_gone. }
    by rewrite Hn.
Qed.

Lemma delete_item_errors_witness :
  let w := alone [ <["id" := VStr "a"]> ∅ ] 1 in
  let raced := World [ <["id" := VStr "a"]> ∅ ] 1 [fun ds => ds; fun _ => []] in
  error_of (Delete "a" (Delete "a" w).2).1 = Some NotFound
  /\ error_of (Delete "a" raced).1 = Some InternalError.
Proof.
  intros w raced. split.
  - apply (delete_item_errors "a" w); [reflexivity | | reflexivity].
    simpl. split; [|exact I]. intros d Hd. by apply elem_of_nil in Hd.
  - apply (delete_item_errors "a" raced).
    + exists (<["id" := VStr "a"]> ∅). split; [left | reflexivity].
    + intros d Hd. by apply elem_of_nil in Hd.
Defined.

(** ** List *)

Lemma serialize_item_world d w : (serialize_item d w).2 = w.
Proof.
  unfold serialize_item, bind, ret, fromisoformat.
  destruct (is_str (d !! "created_at")); [destruct (d !! "created_at") as [[]|]|]; simpl;
    try done;
    match goal with
    | |- context [is_str ?x] =>
        destruct (is_str x) eqn:E; [|done];
        match goal with |- context [match ?y with Some _ => _ | None => _ end] =>
          destruct y as [[]|] end; simpl; done
    end.
Qed.

Lemma serialize_all_world l w : (serialize_all l w).2 = w.
Proof.
  induction l as [|d l IH]; [done|]. simpl. unfold bind.
  pose proof (serialize_item_world d w) as Hd.
  destruct (serialize_item d w) as [[d'| |] w1]; simpl in Hd; subst w1; try done.
  specialize IH. destruct (serialize_all l w) as [[r| |] w2]; simpl in IH; subst w2; done.
Qed.

Lemma ceil_pages (t ps : Z) :
  (0 < ps)%Z ->
  ((t + ps - 1) / ps)%Z = Qceiling (inject_Z t / inject_Z ps).
Proof.
  intros Hps. destruct ps as [|p|p]; try lia.
  unfold Qceiling, Qfloor, Qdiv, Qmult, Qinv, Qopp, inject_Z. simpl.
  rewrite Z.mul_1_r, Pos.mul_1_l.
  pose proof (Z.div_mod (- t) (Z.pos p) ltac:(lia)) as Hd.
  pose proof (Z.mod_pos_bound (- t) (Z.pos p) ltac:(lia)) as Hb.
  symmetry.
  apply (Z.div_unique _ _ _ (Z.pos p - 1 - (- t) mod Z.pos p)); lia.
Qed.

(** The documents that a filter selects. *)
Lemma get_items_success page ps s c w resp w' :
  get_items page ps s c w = (Success resp, w') ->
  let f := build_filter s c in
  let found := List.filter (matches f) (items (await (await w))) in
  filter_supported f = true
  /\ PaginatedItems.total resp = Z.of_nat (length (List.filter (matches f) (items (await w))))
  /\ PaginatedItems.page resp = page /\ PaginatedItems.page_size resp = ps
  /\ PaginatedItems.total_pages resp
     = (if (PaginatedItems.total resp >? 0)%Z then (PaginatedItems.total resp + ps - 1) / ps else 1)%Z
  /\ w' = await (await w)
  /\ exists docs,
       (serialize_all
          (take (Z.to_nat ps) (take (Z.to_nat ps)
             (drop (Z.to_nat ((page - 1) * ps)) (project <$> found)))) w').1
       = Success docs
       /\ validate_items docs = Valid (PaginatedItems.items resp).
Proof.
  intros H f found. unfold get_items, bind, count_documents, find_page in H.
  fold f in H. destruct (filter_supported f) eqn:Ef; [|done].
  fold found in H.
  set (l := take _ _) in *.
  pose proof (serialize_all_world l (await (await w))) as Hw.
  destruct (serialize_all l (await (await w))) as [[docs| |] w1] eqn:Es;
    simpl in Hw; subst w1; try done.
  destruct (validate_items docs) as [its| |] eqn:Ev; try done.
  unfold ret in H. injection H as <- <-. simpl.
  repeat split; try done. exists docs. by rewrite Es.
Qed.

Lemma list_params_ok page ps :
  (1 <= page)%Z -> (1 <= ps <= 100)%Z ->
  ((1 <=? page) && (1 <=? ps) && (ps <=? 100))%Z = true.
Proof. intros. rewrite !andb_true_iff, !Z.leb_le. lia. Qed.

(** C8. A List request with page >= 1 and 1 <= page_size <= 100 reports
    as total the number of documents that the filter selects, whatever the
    page, and total_pages = ceil(total / page_size) when total > 0,
    total_pages = 1 when total = 0. *)
Theorem get_items_total_pages (page page_size : Z) (search category : option string)
    (w : world) (resp : PaginatedItems.t) :
  (1 <= page)%Z -> (1 <= page_size <= 100)%Z ->
  (List page page_size search category w).1 = Success resp ->
  let total :=
    Z.of_nat (length (List.filter (matches (build_filter search category))
                        (items (await w)))) in
  PaginatedItems.total resp = total
  /\ ((total > 0)%Z ->
      PaginatedItems.total_pages resp
      = Qceiling (inject_Z total / inject_Z page_size))
  /\ (total = 0%Z -> PaginatedItems.total_pages resp = 1%Z).
Proof.
  intros Hp Hs H total. unfold List in H. rewrite list_params_ok in H by done.
  destruct (get_items page page_size search category w) as [o w'] eqn:E.
  simpl in H. subst o.
  apply get_items_success in E as (_ & Ht & _ & _ & Hpages & _).
  fold total in Ht. rewrite Hpages, Ht. split; [done|]. split.
  - intros Hpos. destruct (total >? 0)%Z eqn:Eg; [|lia].
    apply ceil_pages. lia.
  - intros ->. done.
Qed.

Lemma get_items_total_pages_witness :
  exists resp, (List 3 1 (Some "lap") None shop).1 = Success resp
               /\ PaginatedItems.total resp = 1%Z
               /\ PaginatedItems.total_pages resp = 1%Z.
Proof.
  eexists. split; [vm_compute; reflexivity|].
  pose proof (get_items_total_pages 3 1 (Some "lap") None shop _
                ltac:(lia) ltac:(lia) ltac:(vm_compute; reflexivity)) as (Ht & Hc & _).
  split; [exact Ht|]. rewrite Hc; [reflexivity | vm_compute; reflexivity].
Defined.

(** C10. A List request whose page lies past the last page of matches,
    (page - 1) * page_size >= total, with no write landing between the
    count and the page read, succeeds with an empty items list and reports
    the total, page, page_size and total_pages of the full match count. *)
Theorem get_items_past_last_page (page page_size : Z) (search category : option string)
    (w : world) :
  (1 <= page)%Z -> (1 <= page_size <= 100)%Z ->
  filter_supported (build_filter search category) = true ->
  items (await (await w)) = items (await w) ->
  let total :=
    Z.of_nat (length (List.filter (matches (build_filter search category))
                        (items (await w)))) in
  ((page - 1) * page_size >= total)%Z ->
  (List page page_size search category w).1
  = Success (PaginatedItems.Make [] total page page_size
               (if (total =? 0)%Z then 1%Z
                else Qceiling (inject_Z total / inject_Z page_size))).
Proof.
  intros Hp Hs Hf Hq total Hpast. unfold List. rewrite list_params_ok by done.
  unfold get_items, bind, count_documents, find_page. rewrite Hf, Hq.
  fold total.
  rewrite (drop_ge _ (Z.to_nat ((page - 1) * page_size))).
  2:{ rewrite length_fmap. subst total. lia. }
  rewrite !take_nil. simpl. unfold ret. simpl. do 2 f_equal.
  destruct (total >? 0)%Z eqn:Eg.
  - destruct (total =? 0)%Z eqn:E0; [lia|]. apply ceil_pages. lia.
  - destruct (total =? 0)%Z eqn:E0; [done|]. lia.
Qed.

Lemma get_items_past_last_page_witness :
  (List 3 10 None (Some "electronics") shop).1
  = Success (PaginatedItems.Make [] 1 3 10 1).
Proof.
  apply (get_items_past_last_page 3 10 None (Some "electronics") shop);
    [lia | lia | reflexivity | reflexivity | vm_compute; discriminate].
Defined.

(** ** Serialisation *)

Lemma serialize_item_pure d w :
  serialize_item d w
  = match serialized d with
    | Some d' => (Success d', w)
    | None => (unhandled "ValueError", w)
    end.
Proof.
  unfold serialize_item, serialized, parse_field, bind, ret, fromisoformat. simpl.
  destruct (d !! "created_at") as [[]|] eqn:E1; simpl;
    try (destruct (d !! "updated_at") as [[]|] eqn:E2; simpl; rewrite ?E2; done).
  rewrite lookup_insert_ne by done.
  destruct (d !! "updated_at") as [[]|] eqn:E2; simpl; done.
Qed.

Lemma parse_field_lookup k d d' :
  parse_field k d = Some d' ->
  d' !! k = revived (d !! k) /\ forall k', k' ≠ k -> d' !! k' = d !! k'.
Proof.
  unfold parse_field. intros H.
  destruct (d !! k) as [[]|] eqn:E; simpl in H; try discriminate;
    try (injection H as <-; rewrite E; done).
  injection H as <-. rewrite lookup_insert_eq. split; [done|].
  intros k' Hk. by rewrite lookup_insert_ne.
Qed.

Lemma serialized_lookup d d' :
  serialized d = Some d' ->
  d' !! "created_at" = revived (d !! "created_at")
  /\ d' !! "updated_at" = revived (d !! "updated_at")
  /\ forall k, k ≠ "created_at" -> k ≠ "updated_at" -> d' !! k = d !! k.
Proof.
  unfold serialized. intros H.
  destruct (parse_field "created_at" d) as [d1|] eqn:E1; [|done]. simpl in H.
  apply parse_field_lookup in E1 as [Hc1 Ho1].
  apply parse_field_lookup in H as [Hc2 Ho2].
  split; [|split].
  - rewrite Ho2 by done. done.
  - rewrite Hc2, Ho1 by done. done.
  - intros k H1 H2. rewrite Ho2, Ho1 by done. done.
Qed.

Lemma serialized_Some d :
  parses (d !! "created_at") = true -> parses (d !! "updated_at") = true ->
  exists d', serialized d = Some d'.
Proof.
  unfold serialized, parse_field. intros H1 H2.
  destruct (d !! "created_at") as [[]|] eqn:E1; simpl in *; try discriminate;
    rewrite ?lookup_insert_ne by done;
    destruct (d !! "updated_at") as [[]|] eqn:E2; simpl in *; try discriminate;
    eauto.
Qed.

Lemma serialized_parses d d' :
  serialized d = Some d' ->
  parses (d !! "created_at") = true /\ parses (d !! "updated_at") = true.
Proof.
  unfold serialized, parse_field. intros H.
  destruct (d !! "created_at") as [[]|] eqn:E1; simpl in *; try discriminate;
    rewrite ?lookup_insert_ne in H by done;
    destruct (d !! "updated_at") as [[]|] eqn:E2; simpl in *; try discriminate;
    done.
Qed.

(** ** Get *)

Lemma Get_unfold i w :
  Get i w =
  match List.find (matches (by_id i)) (items (await w)) with
  | None => (HTTPException 404 (not_found i), await w)
  | Some d0 =>
      match serialized (project d0) with
      | None => (unhandled "ValueError", await w)
      | Some d1 =>
          match Item.validate d1 None with
          | Valid it => (Success it, await w)
          | Invalid => (unhandled "ResponseValidationError", await w)
          | Beyond => (Unmodelled, await w)
          end
      end
  end.
Proof.
  unfold Get, get_item, bind. rewrite find_one_by_id.
  pose proof (falsy_found i (items (await w))) as Hf.
  destruct (List.find _ (items (await w))) as [d0|] eqn:E; simpl; [|done].
  simpl in Hf. rewrite Hf. rewrite serialize_item_pure.
  destruct (serialized (project d0)); [|done].
  unfold respond_item. by destruct (Item.validate _ None).
Qed.

(** ** Validation of models *)

Lemma required_Some {A} (ok : A -> bool) x a :
  required ok x = Some a -> x = Given a /\ ok a = true.
Proof. destruct x as [| |a'|]; simpl; try done. destruct (ok a') eqn:E; naive_solver. Qed.

Lemma optional_Some {A} (ok : A -> bool) x o :
  optional ok x = Some o ->
  match o with
  | Some a => x = Given a /\ ok a = true
  | None => x = Absent \/ x = Null
  end.
Proof.
  destruct x as [| |a'|]; simpl; try done; try (intros [= <-]; auto).
  destruct (ok a') eqn:E; [|done]. intros [= <-]. done.
Qed.

Lemma ItemCreate_validate_Some body ic :
  ItemCreate.validate body = Some ic ->
  Body.name body = Given (ItemCreate.name ic)
  /\ Body.price body = Given (ItemCreate.price ic)
  /\ Body.quantity body = Given (ItemCreate.quantity ic)
  /\ forall f, fields_ok (item_of ic f).
Proof.
  unfold ItemCreate.validate. intros H.
  destruct (required name_ok _) as [n|] eqn:En; [|done].
  destruct (optional description_ok _) as [d|] eqn:Ed; [|done].
  destruct (required price_ok _) as [p|] eqn:Ep; [|done].
  destruct (required quantity_ok _) as [q|] eqn:Eq; [|done].
  destruct (optional category_ok _) as [c|] eqn:Ec; [|done].
  simpl in H. injection H as <-. simpl.
  apply required_Some in En as [-> Hn], Ep as [-> Hp], Eq as [-> Hq].
  apply optional_Some in Ed, Ec.
  repeat split; simpl; try done.
  - intros s ->. by destruct Ed.
  - intros s ->. by destruct Ec.
Qed.

Lemma check_opt_str_ok ok (o : option string) :
  (forall s, o = Some s -> ok s = true) ->
  check_opt_str ok (Some (dump_str o)) = Valid o.
Proof.
  intros H. destruct o as [s|]; simpl; [|done].
  unfold guard. by rewrite (H s eq_refl).
Qed.

(** A dict that carries the fields of a well-bounded item validates as
    that item. *)
Lemma validate_fields (d : doc) (it : Item.t) (ca ua : value) fs :
  fields_ok it ->
  d !! "name" = Some (VStr (Item.name it)) ->
  d !! "description" = Some (dump_str (Item.description it)) ->
  d !! "price" = Some (VFloat (Item.price it)) ->
  d !! "quantity" = Some (VInt (Item.quantity it)) ->
  d !! "category" = Some (dump_str (Item.category it)) ->
  d !! "id" = Some (VStr (Item.id it)) ->
  d !! "created_at" = Some ca -> check_datetime (Some ca) = Valid (Item.created_at it) ->
  d !! "updated_at" = Some ua -> check_datetime (Some ua) = Valid (Item.updated_at it) ->
  Item.validate d fs = Valid it.
Proof.
  intros (Hn & Hd & Hp & Hq & Hc) En Ed Ep Eq Ec Ei Eca Hca Eua Hua.
  unfold Item.validate. rewrite En, Ed, Ep, Eq, Ec, Ei, Eca, Eua.
  rewrite (check_opt_str_ok _ _ Hd), (check_opt_str_ok _ _ Hc), Hca, Hua.
  simpl. unfold guard. rewrite Hn, Hp, Hq. simpl.
  by destruct it.
Qed.

Lemma create_item_ok ic f w :
  fields_ok (item_of ic f) ->
  create_item ic f w
  = (Success (item_of ic f),
     World (items (await w)
              ++ [<["_id" := VObjectId (next_oid (await w))]> (stored (item_of ic f))])
           (S (next_oid (await w))) (others (await w))).
Proof.
  intros Hok. unfold create_item.
  assert (Hv : Item.validate (ItemCreate.model_dump ic) (Some f) = Valid (item_of ic f)).
  { destruct Hok as (Hn & Hd & Hp & Hq & Hc). simpl in *.
    unfold Item.validate, ItemCreate.model_dump.
    simpl_map. rewrite (check_opt_str_ok _ _ Hd), (check_opt_str_ok _ _ Hc).
    simpl. unfold guard. rewrite Hn, Hp, Hq. reflexivity. }
  rewrite Hv. reflexivity.
Qed.

(** ** Create, then Get *)


(** The stored form of an item reads back as the item. *)
Lemma stored_reads_back (it : Item.t) (oid : value) :
  fields_ok it ->
  exists d1, serialized (project (<["_id" := oid]> (stored it))) = Some d1
             /\ Item.validate d1 None = Valid it.
Proof.
  intros Hok. set (d := project _).
  assert (Hca : d !! "created_at" = Some (VIso (Item.created_at it))).
  { subst d. unfold project, stored. by simpl_map. }
  assert (Hua : d !! "updated_at" = Some (VIso (Item.updated_at it))).
  { subst d. unfold project, stored. by simpl_map. }
  destruct (serialized_Some d) as [d1 Hd1]; [by rewrite Hca | by rewrite Hua |].
  exists d1. split; [done|].
  apply serialized_lookup in Hd1 as (H1 & H2 & Hk).
  rewrite Hca in H1. rewrite Hua in H2. simpl in H1, H2.
  eapply validate_fields; try done;
    rewrite Hk by done; subst d; unfold project, stored, Item.model_dump; by simpl_map.
Qed.



(** ** Update *)

Lemma update_data_lookup (u : ItemUpdate.t) :
  update_data u !! "name" = VStr <$> ItemUpdate.name u
  /\ update_data u !! "description" = VStr <$> ItemUpdate.description u
  /\ update_data u !! "price" = VFloat <$> ItemUpdate.price u
  /\ update_data u !! "quantity" = VInt <$> ItemUpdate.quantity u
  /\ update_data u !! "category" = VStr <$> ItemUpdate.category u.
Proof.
  unfold update_data, drop_none, ItemUpdate.model_dump.
  rewrite !map_lookup_filter. simpl_map.
  destruct u as [[n|] [d|] [p|] [q|] [c|]]; simpl; repeat split; reflexivity.
Qed.

Lemma update_data_other (u : ItemUpdate.t) (k : string) :
  k ≠ "name" -> k ≠ "description" -> k ≠ "price" -> k ≠ "quantity" ->
  k ≠ "category" -> update_data u !! k = None.
Proof.
  intros. unfold update_data, drop_none, ItemUpdate.model_dump.
  rewrite map_lookup_filter. by simpl_map.
Qed.

Lemma update_data_empty (u : ItemUpdate.t) :
  bool_decide (dom (update_data u) = ∅) = nothing_set u.
Proof.
  destruct (update_data_lookup u) as (Hn & Hd & Hp & Hq & Hc).
  destruct (nothing_set u) eqn:E.
  - apply bool_decide_eq_true. apply dom_empty_iff_L. apply map_eq. intros k.
    rewrite lookup_empty.
    unfold nothing_set in E.
    destruct (ItemUpdate.name u), (ItemUpdate.description u), (ItemUpdate.price u),
      (ItemUpdate.quantity u), (ItemUpdate.category u); try discriminate E.
    destruct (decide (k = "name")) as [->|]; [exact Hn|].
    destruct (decide (k = "description")) as [->|]; [exact Hd|].
    destruct (decide (k = "price")) as [->|]; [exact Hp|].
    destruct (decide (k = "quantity")) as [->|]; [exact Hq|].
    destruct (decide (k = "category")) as [->|]; [exact Hc|].
    by apply update_data_other.
  - apply bool_decide_eq_false. intros Hdom. apply dom_empty_iff_L in Hdom.
    rewrite Hdom, lookup_empty in Hn, Hd, Hp, Hq, Hc.
    unfold nothing_set in E.
    destruct (ItemUpdate.name u); [discriminate Hn|].
    destruct (ItemUpdate.description u); [discriminate Hd|].
    destruct (ItemUpdate.price u); [discriminate Hp|].
    destruct (ItemUpdate.quantity u); [discriminate Hq|].
    destruct (ItemUpdate.category u); [discriminate Hc|].
    discriminate E.
Qed.

Lemma find_update_first f (g : doc -> doc) (ds : list doc) :
  (forall d, matches f d = true -> matches f (g d) = true) ->
  List.find (matches f) (update_first f g ds) = g <$> List.find (matches f) ds.
Proof.
  intros Hg. induction ds as [|d ds IH]; [done|]. simpl.
  destruct (matches f d) eqn:E; simpl.
  - by rewrite (Hg d E).
  - by rewrite E.
Qed.

Lemma set_doc_keeps_id u now i d :
  matches (by_id i) d = true -> matches (by_id i) (set_doc u now ∪ d) = true.
Proof.
  rewrite !matches_by_id. unfold has_id, set_doc. intros H.
  rewrite lookup_union_r; [done|].
  rewrite lookup_insert_ne by done. by apply update_data_other.
Qed.

(** [update_item] when no other request runs. *)
Lemma update_item_alone i u now ds n :
  update_item i u now (alone ds n) =
  match List.find (matches (by_id i)) ds with
  | None => (HTTPException 404 (not_found i), alone ds n)
  | Some d0 =>
      if nothing_set u
      then (HTTPException 400 "No valid fields provided for update", alone ds n)
      else
        let w' := alone (update_first (by_id i) (fun d => set_doc u now ∪ d) ds) n in
        match serialized (project (set_doc u now ∪ d0)) with
        | Some d1 => (Success d1, w')
        | None => (unhandled "ValueError", w')
        end
  end.
Proof.
  unfold update_item, bind. rewrite find_one_by_id, await_alone. simpl.
  rewrite falsy_found.
  destruct (List.find _ ds) as [d0|] eqn:E; simpl; [|done].
  fold (update_data u). rewrite update_data_empty.
  destruct (nothing_set u); [done|].
  unfold update_one. rewrite filter_supported_by_id, await_alone. simpl.
  fold (set_doc u now).
  rewrite find_one_by_id. unfold await at 1 2. simpl.
  rewrite find_update_first by (intros; by apply set_doc_keeps_id).
  rewrite E. simpl. by rewrite serialize_item_pure.
Qed.

Lemma ItemUpdate_validate_Some body u :
  ItemUpdate.validate body = Some u ->
  (forall s, ItemUpdate.name u = Some s -> name_ok s = true)
  /\ (forall s, ItemUpdate.description u = Some s -> description_ok s = true)
  /\ (forall p, ItemUpdate.price u = Some p -> price_ok p = true)
  /\ (forall q, ItemUpdate.quantity u = Some q -> quantity_ok q = true)
  /\ (forall s, ItemUpdate.category u = Some s -> category_ok s = true).
Proof.
  unfold ItemUpdate.validate. intros H.
  destruct (optional name_ok _) as [n|] eqn:En; [|done].
  destruct (optional description_ok _) as [d|] eqn:Ed; [|done].
  destruct (optional price_ok _) as [p|] eqn:Ep; [|done].
  destruct (optional quantity_ok _) as [q|] eqn:Eq; [|done].
  destruct (optional category_ok _) as [c|] eqn:Ec; [|done].
  simpl in H. injection H as <-. simpl.
  apply optional_Some in En. apply optional_Some in Ed. apply optional_Some in Ep.
  apply optional_Some in Eq. apply optional_Some in Ec.
  repeat split; intros x E; subst; tauto.
Qed.

Lemma validate_inv d fs it :
  Item.validate d fs = Valid it ->
  check_str name_ok (d !! "name") = Valid (Item.name it)
  /\ check_opt_str description_ok (d !! "description") = Valid (Item.description it)
  /\ check_float price_ok (d !! "price") = Valid (Item.price it)
  /\ check_int quantity_ok (d !! "quantity") = Valid (Item.quantity it)
  /\ check_opt_str category_ok (d !! "category") = Valid (Item.category it)
  /\ Item.with_default (d !! "id") (Item.uuid4 <$> fs)
       (check_str (fun _ => true) (d !! "id")) = Valid (Item.id it)
  /\ Item.with_default (d !! "created_at") (Item.now_created <$> fs)
       (check_datetime (d !! "created_at")) = Valid (Item.created_at it)
  /\ Item.with_default (d !! "updated_at") (Item.now_updated <$> fs)
       (check_datetime (d !! "updated_at")) = Valid (Item.updated_at it).
Proof.
  unfold Item.validate. intros H.
  destruct (check_str name_ok _); try discriminate H.
  destruct (check_opt_str description_ok _); try discriminate H.
  destruct (check_float _ _); try discriminate H.
  destruct (check_int _ _); try discriminate H.
  destruct (check_opt_str category_ok _); try discriminate H.
  destruct (Item.with_default (d !! "id") _ _); try discriminate H.
  destruct (Item.with_default (d !! "created_at") _ _); try discriminate H.
  destruct (Item.with_default (d !! "updated_at") _ _); try discriminate H.
  simpl in H. injection H as <-. simpl. repeat split.
Qed.

Lemma validate_intro d fs it :
  check_str name_ok (d !! "name") = Valid (Item.name it) ->
  check_opt_str description_ok (d !! "description") = Valid (Item.description it) ->
  check_float price_ok (d !! "price") = Valid (Item.price it) ->
  check_int quantity_ok (d !! "quantity") = Valid (Item.quantity it) ->
  check_opt_str category_ok (d !! "category") = Valid (Item.category it) ->
  Item.with_default (d !! "id") (Item.uuid4 <$> fs)
    (check_str (fun _ => true) (d !! "id")) = Valid (Item.id it) ->
  Item.with_default (d !! "created_at") (Item.now_created <$> fs)
    (check_datetime (d !! "created_at")) = Valid (Item.created_at it) ->
  Item.with_default (d !! "updated_at") (Item.now_updated <$> fs)
    (check_datetime (d !! "updated_at")) = Valid (Item.updated_at it) ->
  Item.validate d fs = Valid it.
Proof.
  intros H1 H2 H3 H4 H5 H6 H7 H8. unfold Item.validate.
  rewrite H1, H2, H3, H4, H5, H6, H7, H8. simpl. by destruct it.
Qed.

(** A field of the document after [$set], read through the projection. *)
Lemma set_field (u : ItemUpdate.t) (now : Z) (d0 : doc) (k : string) (v : option value) :
  k ≠ "_id" -> update_data u !! k = v -> k ≠ "updated_at" ->
  project (set_doc u now ∪ d0) !! k
  = match v with Some x => Some x | None => project d0 !! k end.
Proof.
  intros Hk Hv Hu. unfold project, set_doc.
  rewrite !lookup_delete_ne by done.
  rewrite lookup_union, lookup_insert_ne, Hv by done.
  destruct v, (d0 !! k); reflexivity.
Qed.

Lemma set_field_other (u : ItemUpdate.t) (now : Z) (d0 : doc) (k : string) :
  k ≠ "_id" -> k ≠ "updated_at" ->
  k ≠ "name" -> k ≠ "description" -> k ≠ "price" -> k ≠ "quantity" ->
  k ≠ "category" ->
  project (set_doc u now ∪ d0) !! k = project d0 !! k.
Proof.
  intros H1 H2 H3 H4 H5 H6 H7.
  apply (set_field u now d0 k None H1); [|exact H2].
  apply update_data_other; assumption.
Qed.

(** The document after [$set] reads back as the patched record. *)
Lemma patched_reads body u now d0 d1 old :
  ItemUpdate.validate body = Some u ->
  serialized (project d0) = Some d1 ->
  Item.validate d1 None = Valid old ->
  exists D1, serialized (project (set_doc u now ∪ d0)) = Some D1
             /\ Item.validate D1 None = Valid (patched old u now).
Proof.
  intros Hu Es Ev.
  apply validate_inv in Ev as (Vn & Vd & Vp & Vq & Vc & Vi & Vca & Vua).
  destruct (serialized_parses _ _ Es) as [Pc Pu].
  pose proof (serialized_lookup _ _ Es) as (Lc & Lu & Lk).
  destruct (update_data_lookup u) as (Un & Ud & Up & Uq & Uc).
  destruct (ItemUpdate_validate_Some _ _ Hu) as (On & Od & Op & Oq & Oc).
  set (D := project (set_doc u now ∪ d0)).
  assert (Dca : D !! "created_at" = project d0 !! "created_at").
  { subst D. by apply set_field_other. }
  assert (Dua : D !! "updated_at" = Some (VIso now)).
  { subst D. unfold project, set_doc. rewrite lookup_delete_ne by done.
    apply lookup_union_Some_l. by rewrite lookup_insert_eq. }
  assert (Did : D !! "id" = project d0 !! "id").
  { subst D. by apply set_field_other. }
  destruct (serialized_Some D) as [D1 HD1]; [by rewrite Dca | by rewrite Dua |].
  pose proof (serialized_lookup _ _ HD1) as (Mc & Mu & Mk).
  assert (HV : Item.validate D1 None = Valid (patched old u now)).
  { apply validate_intro; simpl.
    - rewrite Mk by done. subst D.
      rewrite (set_field u now d0 "name" _ ltac:(done) Un ltac:(done)).
      destruct (ItemUpdate.name u) as [s|] eqn:E; simpl.
      + unfold guard. by rewrite (On s eq_refl).
      + rewrite <- Lk by done. exact Vn.
    - rewrite Mk by done. subst D.
      rewrite (set_field u now d0 "description" _ ltac:(done) Ud ltac:(done)).
      destruct (ItemUpdate.description u) as [s|] eqn:E; simpl.
      + unfold guard. by rewrite (Od s eq_refl).
      + rewrite <- Lk by done. exact Vd.
    - rewrite Mk by done. subst D.
      rewrite (set_field u now d0 "price" _ ltac:(done) Up ltac:(done)).
      destruct (ItemUpdate.price u) as [s|] eqn:E; simpl.
      + unfold guard. by rewrite (Op s eq_refl).
      + rewrite <- Lk by done. exact Vp.
    - rewrite Mk by done. subst D.
      rewrite (set_field u now d0 "quantity" _ ltac:(done) Uq ltac:(done)).
      destruct (ItemUpdate.quantity u) as [s|] eqn:E; simpl.
      + unfold guard. by rewrite (Oq s eq_refl).
      + rewrite <- Lk by done. exact Vq.
    - rewrite Mk by done. subst D.
      rewrite (set_field u now d0 "category" _ ltac:(done) Uc ltac:(done)).
      destruct (ItemUpdate.category u) as [s|] eqn:E; simpl.
      + unfold guard. by rewrite (Oc s eq_refl).
      + rewrite <- Lk by done. exact Vc.
    - rewrite Mk, Did by done. rewrite <- (Lk "id") by done. exact Vi.
    - rewrite Mc, Dca, <- Lc. exact Vca.
    - rewrite Mu, Dua. reflexivity. }
  exists D1. split; [exact HD1 | exact HV].
Qed.

(** Update of an existing, readable record when no other request runs. *)
Lemma Update_alone_success i body now ds n u old :
  ItemUpdate.validate body = Some u -> nothing_set u = false ->
  (Get i (alone ds n)).1 = Success old ->
  Update i body now (alone ds n)
  = (Success (patched old u now),
     alone (update_first (by_id i) (fun d => set_doc u now ∪ d) ds) n)
  /\ (Get i (alone (update_first (by_id i) (fun d => set_doc u now ∪ d) ds) n)).1
     = Success (patched old u now).
Proof.
  intros Hu Hset Hget. unfold Update, bind. rewrite Hu, update_item_alone.
  rewrite Get_unfold, await_alone in Hget. cbn [items alone] in Hget.
  rewrite Get_unfold, await_alone. cbn [items alone].
  rewrite find_update_first by (intros; by apply set_doc_keeps_id).
  destruct (List.find _ ds) as [d0|] eqn:Ef; [|discriminate Hget].
  rewrite Hset. cbv zeta.
  destruct (serialized (project d0)) as [d1|] eqn:Es; [|discriminate Hget].
  destruct (Item.validate d1 None) as [it| |] eqn:Ev; try discriminate Hget.
  cbn [fst] in Hget. injection Hget as ->.
  destruct (patched_reads _ _ now _ _ _ Hu Es Ev) as (D1 & HD1 & HV).
  cbn [fmap option_fmap option_map]. rewrite HD1.
  unfold respond_item. rewrite HV. split; reflexivity.
Qed.




Lemma all_unset_validates body :
  all_unset body = true ->
  exists u, ItemUpdate.validate body = Some u /\ nothing_set u = true.
Proof.
  unfold all_unset, ItemUpdate.validate. intros H.
  destruct (Body.name body), (Body.description body), (Body.price body),
    (Body.quantity body), (Body.category body); try discriminate H;
    cbn; eexists; split; reflexivity.
Qed.

Lemma validate_without_nulls body :
  ItemUpdate.validate (without_nulls body) = ItemUpdate.validate body.
Proof.
  unfold ItemUpdate.validate, without_nulls. cbn [Body.name Body.description
    Body.price Body.quantity Body.category].
  assert (E : forall A (ok : A -> bool) x, optional ok (null_as_absent x) = optional ok x)
    by (intros A ok []; reflexivity).
  by rewrite !E.
Qed.



Lemma set_doc_id u now (d : doc) : (set_doc u now ∪ d) !! "id" = d !! "id".
Proof.
  apply lookup_union_r. unfold set_doc. rewrite lookup_insert_ne by done.
  by apply update_data_other.
Qed.

(** The first two steps of [update_item] when the update carries nothing. *)
Lemma update_item_nothing i u now w :
  (exists d, d ∈ items (await w) /\ has_id i d) -> nothing_set u = true ->
  update_item i u now w
  = (HTTPException 400 "No valid fields provided for update", await w).
Proof.
  intros (d & Hd & Hi) Hu. unfold update_item, bind.
  rewrite find_one_by_id, falsy_found.
  destruct (List.find _ (items (await w))) eqn:E.
  - fold (update_data u). rewrite update_data_empty, Hu. reflexivity.
  - exfalso. rewrite find_by_id_None in E. exact (E d Hd Hi).
Qed.

Lemma Get_found i w old :
  (Get i w).1 = Success old -> exists d, d ∈ items (await w) /\ has_id i d.
Proof.
  rewrite Get_unfold. destruct (List.find _ (items (await w))) as [d|] eqn:E.
  - intros _. exists d. by apply find_by_id_Some.
  - intros H. discriminate H.
Qed.



(** C7. Update of an existing id with an input in which no field is set
    fails with status 400, a ValidationError, and writes nothing: the
    world after the call is the world in which the existence check was
    served. *)
Theorem update_item_nothing_to_change (item_id : string) (now : Z) (w : world) :
  (exists d, d ∈ items (await w) /\ has_id item_id d) ->
  Update item_id no_field now w
  = (HTTPException 400 "No valid fields provided for update", await w)
  /\ error_of (Update item_id no_field now w).1 = Some ValidationError
  /\ items (Update item_id no_field now w).2 = items (await w).
Proof.
  intros Hex.
  assert (E : Update item_id no_field now w
              = (HTTPException 400 "No valid fields provided for update", await w)).
  { assert (Hv : ItemUpdate.validate no_field
                 = Some (ItemUpdate.Make None None None None None)) by reflexivity.
    unfold Update, bind. rewrite Hv.
    rewrite update_item_nothing; [reflexivity | exact Hex | reflexivity]. }
  rewrite E. repeat split.
Qed.

Lemma update_item_nothing_to_change_witness :
  Update "id-1" no_field 2000 shop
  = (HTTPException 400 "No valid fields provided for update", shop).
Proof.
  apply (update_item_nothing_to_change "id-1" 2000 shop).
  eexists. split; [left | reflexivity].
Defined.

(** C9. Update treats a field supplied as null like an absent field: the
    call equals the call on the body without its nulls; a body whose
    fields are all null or absent is rejected for an existing id with
    status 400, a ValidationError, and writes nothing; and no successful
    Update turns a description or category that holds a text back to
    null, in the returned record as in the stored one. *)
Theorem update_null_is_absent (item_id : string) (body : Body.t) (now : Z) (w : world) :
  Update item_id body now w = Update item_id (without_nulls body) now w
  /\ (all_unset body = true ->
      (exists d, d ∈ items (await w) /\ has_id item_id d) ->
      error_of (Update item_id body now w).1 = Some ValidationError
      /\ (Update item_id body now w).2 = await w)
  /\ (forall old new,
        others w = [] ->
        (Get item_id w).1 = Success old ->
        (Update item_id body now w).1 = Success new ->
        (is_Some (Item.description old) -> is_Some (Item.description new))
        /\ (is_Some (Item.category old) -> is_Some (Item.category new))
        /\ (Get item_id (Update item_id body now w).2).1 = Success new).
Proof.
  split; [|split].
  - unfold Update. by rewrite validate_without_nulls.
  - intros Hall Hex. destruct (all_unset_validates _ Hall) as (u & Hu & Hn).
    unfold Update, bind. rewrite Hu, (update_item_nothing _ _ _ _ Hex Hn).
    split; reflexivity.
  - intros old new Ho Hget Hupd.
    destruct w as [ds n os]. cbn in Ho. subst os. change (World ds n []) with (alone ds n) in *.
    destruct (ItemUpdate.validate body) as [u|] eqn:Hu.
    2:{ unfold Update in Hupd. rewrite Hu in Hupd. discriminate Hupd. }
    destruct (nothing_set u) eqn:Hn.
    { unfold Update, bind in Hupd. rewrite Hu in Hupd.
      rewrite (update_item_nothing _ _ _ _ (Get_found _ _ _ Hget) Hn) in Hupd.
      discriminate Hupd. }
    destruct (Update_alone_success item_id body now ds n u old Hu Hn Hget) as [HU HG].
    rewrite HU in Hupd |- *. cbn [fst snd] in Hupd |- *. injection Hupd as <-.
    split; [|split; [|exact HG]].
    + unfold patched. cbn [Item.description]. intros Hs.
      destruct (ItemUpdate.description u); [by eexists | exact Hs].
    + unfold patched. cbn [Item.category]. intros Hs.
      destruct (ItemUpdate.category u); [by eexists | exact Hs].
Qed.

Lemma update_null_is_absent_witness :
  error_of (Update "id-1" (Body.Make Absent Null Null Absent Null) 2000 shop).1
  = Some ValidationError
  /\ (Update "id-1" (Body.Make Absent Null Null Absent Null) 2000 shop).2 = shop.
Proof.
  apply (update_null_is_absent "id-1" (Body.Make Absent Null Null Absent Null) 2000 shop).
  - reflexivity.
  - eexists. split; [left | reflexivity].
Defined.

(** ** The bounds of persisted records *)

Lemma price_ok_spec q : price_ok q = true <-> (0 < q)%Q.
Proof.
  unfold price_ok, gt. rewrite negb_true_iff.
  split.
  - intros H. apply Qnot_le_lt. intros Hle. apply Qle_bool_iff in Hle. congruence.
  - intros H. destruct (Qle_bool q 0) eqn:E; [|reflexivity].
    apply Qle_bool_iff in E. exfalso. exact (Qlt_not_le _ _ H E).
Qed.

Lemma quantity_ok_spec z : quantity_ok z = true <-> (0 <= z)%Z.
Proof. unfold quantity_ok, ge. apply Z.leb_le. Qed.

Lemma await_inv w : bounds_inv w -> bounds_inv (await w).
Proof.
  unfold bounds_inv, await, keep_bounds. intros [Hi Ho].
  destruct (others w) as [|g os] eqn:E; [by rewrite E|].
  cbn. apply Forall_cons in Ho as [Hg Hos]. split; [by apply Hg | exact Hos].
Qed.

Lemma preserves_ret {A} (a : A) : preserves (ret a).
Proof. intros w H. exact H. Qed.

Lemma preserves_raise {A} c s : preserves (A := A) (raise c s).
Proof. intros w H. exact H. Qed.

Lemma preserves_const {A} (o : outcome A) : preserves (fun w => (o, w)).
Proof. intros w H. exact H. Qed.

Lemma preserves_bind {A B} (m : M A) (k : A -> M B) :
  preserves m -> (forall a, preserves (k a)) -> preserves (bind m k).
Proof.
  intros Hm Hk w Hw. unfold bind. specialize (Hm w Hw).
  destruct (m w) as [[a| |] w1]; cbn in *; try exact Hm.
  by apply Hk.
Qed.

Lemma preserves_find_one f : preserves (find_one f).
Proof.
  intros w Hw. unfold find_one. apply await_inv in Hw.
  by destruct (filter_supported f).
Qed.

Lemma preserves_insert_one d : bounded d -> preserves (insert_one d).
Proof.
  intros Hd w Hw. apply await_inv in Hw as [Hi Ho].
  unfold insert_one. split; [|exact Ho]. cbn.
  apply Forall_app. split; [exact Hi|].
  apply Forall_cons. split; [|constructor].
  destruct Hd as (p & q & Hp & Hpos & Hq & Hnn).
  exists p, q. rewrite !lookup_insert_ne by done. tauto.
Qed.

Lemma update_first_bounded f (g : doc -> doc) (l : list doc) :
  (forall d, bounded d -> bounded (g d)) ->
  Forall bounded l -> Forall bounded (update_first f g l).
Proof.
  intros Hg. induction 1 as [|d l Hd Hl IH]; cbn; [constructor|].
  destruct (matches f d); apply Forall_cons; split; auto.
Qed.

Lemma preserves_update_one f (s : doc) :
  (forall d, bounded d -> bounded (s ∪ d)) -> preserves (update_one f s).
Proof.
  intros Hs w Hw. apply await_inv in Hw as [Hi Ho].
  unfold update_one. destruct (filter_supported f); [|by split].
  split; [|exact Ho]. cbn. by apply update_first_bounded.
Qed.

Lemma preserves_serialize_item d : preserves (serialize_item d).
Proof. intros w Hw. by rewrite serialize_item_world. Qed.

Lemma preserves_respond_item d : preserves (respond_item d).
Proof. intros w Hw. unfold respond_item. by destruct (Item.validate d None). Qed.

(** The document that [create_item] stores obeys the bounds. *)
Lemma stored_bounded (it : Item.t) :
  price_ok (Item.price it) = true -> quantity_ok (Item.quantity it) = true ->
  bounded (stored it).
Proof.
  intros Hp Hq. exists (Item.price it), (Item.quantity it).
  unfold stored, Item.model_dump. rewrite !lookup_insert_ne by done.
  rewrite lookup_insert_eq.
  split; [reflexivity|]. split; [by apply price_ok_spec|].
  rewrite !lookup_insert_ne by done. rewrite lookup_insert_eq.
  split; [reflexivity | by apply quantity_ok_spec].
Qed.

Lemma guard_Valid {A} (ok : A -> bool) a b : guard ok a = Valid b -> a = b /\ ok a = true.
Proof. unfold guard. destruct (ok a); [|discriminate]. intros [= ->]. done. Qed.

Lemma created_within_bounds (ic : ItemCreate.t) fs (it : Item.t) :
  Item.validate (ItemCreate.model_dump ic) fs = Valid it ->
  price_ok (Item.price it) = true /\ quantity_ok (Item.quantity it) = true.
Proof.
  intros H. apply validate_inv in H as (_ & _ & Hp & Hq & _).
  unfold ItemCreate.model_dump in Hp, Hq.
  rewrite !lookup_insert_ne, lookup_insert_eq in Hp by done.
  rewrite !lookup_insert_ne, lookup_insert_eq in Hq by done.
  cbn in Hp, Hq.
  apply guard_Valid in Hp as [<- Hp]. apply guard_Valid in Hq as [<- Hq].
  split; assumption.
Qed.

Lemma preserves_create_item ic f : preserves (create_item ic f).
Proof.
  unfold create_item.
  destruct (Item.validate _ (Some f)) as [it| |] eqn:E;
    [|apply preserves_const | apply preserves_const].
  apply created_within_bounds in E as [Hp Hq].
  apply preserves_bind; [|intros; apply preserves_ret].
  apply preserves_insert_one. by apply (stored_bounded it).
Qed.

(** The [$set] of a validated update keeps the bounds of a document. *)
Lemma set_doc_bounded u now (d : doc) :
  (forall p, ItemUpdate.price u = Some p -> price_ok p = true) ->
  (forall q, ItemUpdate.quantity u = Some q -> quantity_ok q = true) ->
  bounded d -> bounded (set_doc u now ∪ d).
Proof.
  intros Op Oq (p & q & Hp & Hpos & Hq & Hnn).
  destruct (update_data_lookup u) as (_ & _ & Up & Uq & _).
  assert (Lp : (set_doc u now ∪ d) !! "price"
               = match ItemUpdate.price u with
                 | Some x => Some (VFloat x) | None => Some (VFloat p) end).
  { rewrite lookup_union. unfold set_doc. rewrite lookup_insert_ne, Up, Hp by done.
    by destruct (ItemUpdate.price u). }
  assert (Lq : (set_doc u now ∪ d) !! "quantity"
               = match ItemUpdate.quantity u with
                 | Some x => Some (VInt x) | None => Some (VInt q) end).
  { rewrite lookup_union. unfold set_doc. rewrite lookup_insert_ne, Uq, Hq by done.
    by destruct (ItemUpdate.quantity u). }
  unfold bounded. rewrite Lp, Lq.
  destruct (ItemUpdate.price u) as [p'|] eqn:Ep, (ItemUpdate.quantity u) as [q'|] eqn:Eq.
  - exists p', q'. repeat split; [by apply price_ok_spec, Op | by apply quantity_ok_spec, Oq].
  - exists p', q. repeat split; [by apply price_ok_spec, Op | exact Hnn].
  - exists p, q'. repeat split; [exact Hpos | by apply quantity_ok_spec, Oq].
  - exists p, q. repeat split; assumption.
Qed.

Lemma preserves_update_item i u now :
  (forall p, ItemUpdate.price u = Some p -> price_ok p = true) ->
  (forall q, ItemUpdate.quantity u = Some q -> quantity_ok q = true) ->
  preserves (update_item i u now).
Proof.
  intros Op Oq. unfold update_item.
  apply preserves_bind; [apply preserves_find_one|]. intros existing.
  destruct (falsy_doc existing); [apply preserves_raise|].
  fold (update_data u).
  destruct (bool_decide (dom (update_data u) = ∅)); [apply preserves_raise|].
  fold (set_doc u now).
  apply preserves_bind.
  { apply preserves_update_one. intros d. by apply set_doc_bounded. }
  intros _. apply preserves_bind; [apply preserves_find_one|].
  intros [d|]; [apply preserves_serialize_item | apply preserves_const].
Qed.

Lemma preserves_Create body f : preserves (Create body f).
Proof.
  unfold Create. destruct (ItemCreate.validate body);
    [apply preserves_create_item | apply preserves_raise].
Qed.

Lemma preserves_Update i body now : preserves (Update i body now).
Proof.
  unfold Update. destruct (ItemUpdate.validate body) as [u|] eqn:E;
    [|apply preserves_raise].
  destruct (ItemUpdate_validate_Some _ _ E) as (_ & _ & Op & Oq & _).
  apply preserves_bind; [by apply preserves_update_item|].
  intros d. apply preserves_respond_item.
Qed.

Lemma breaks_bound_rejected body :
  breaks_bound body ->
  ItemCreate.validate body = None /\ ItemUpdate.validate body = None.
Proof.
  unfold ItemCreate.validate, ItemUpdate.validate.
  intros [(p & E & H) | [(q & E & H) | [(s & E & H) | [(s & E & H) | (s & E & H)]]]];
    rewrite E; cbn.
  - assert (Hf : price_ok p = false).
    { destruct (price_ok p) eqn:Ep; [|reflexivity]. apply price_ok_spec in Ep. tauto. }
    rewrite Hf.
    split; [destruct (required name_ok _), (optional description_ok _); reflexivity
           | destruct (optional name_ok _), (optional description_ok _); reflexivity].
  - assert (Hf : quantity_ok q = false).
    { destruct (quantity_ok q) eqn:Eq; [|reflexivity]. apply quantity_ok_spec in Eq. tauto. }
    rewrite Hf.
    split; [destruct (required name_ok _), (optional description_ok _),
              (required price_ok _); reflexivity
           | destruct (optional name_ok _), (optional description_ok _),
              (optional price_ok _); reflexivity].
  - assert (Hf : name_ok s = false).
    { destruct (name_ok s) eqn:En; [|reflexivity]. exfalso. apply H.
      unfold name_ok, min_length, max_length in En.
      apply andb_true_iff in En as [H1 H2].
      apply Nat.leb_le in H1, H2. lia. }
    rewrite Hf. split; reflexivity.
  - assert (Hf : description_ok s = false).
    { destruct (description_ok s) eqn:En; [|reflexivity]. exfalso. apply H.
      unfold description_ok, max_length in En. by apply Nat.leb_le in En. }
    rewrite Hf.
    split; [destruct (required name_ok _); reflexivity
           | destruct (optional name_ok _); reflexivity].
  - assert (Hf : category_ok s = false).
    { destruct (category_ok s) eqn:En; [|reflexivity]. exfalso. apply H.
      unfold category_ok, max_length in En. by apply Nat.leb_le in En. }
    rewrite Hf.
    split; [destruct (required name_ok _), (optional description_ok _),
              (required price_ok _), (required quantity_ok _); reflexivity
           | destruct (optional name_ok _), (optional description_ok _),
              (optional price_ok _), (optional quantity_ok _); reflexivity].
Qed.

(** C4. If every persisted record has price > 0 and quantity >= 0, and the
    concurrent requests keep it so, then this holds again after any Create
    and any Update, successful or not; and an input that gives price,
    quantity, name, description or category a value outside its bounds is
    rejected by Create and by Update with status 422, a ValidationError,
    before any store call: the world is left as it was. *)
Theorem bounds_hold_and_guard (body : Body.t) (f : Item.factories) (item_id : string)
    (now : Z) (w : world) :
  (bounds_inv w ->
   Forall bounded (items (Create body f w).2)
   /\ Forall bounded (items (Update item_id body now w).2))
  /\ (breaks_bound body ->
      Create body f w = (HTTPException 422 "Unprocessable Entity", w)
      /\ Update item_id body now w = (HTTPException 422 "Unprocessable Entity", w)
      /\ error_of (Create body f w).1 = Some ValidationError
      /\ error_of (Update item_id body now w).1 = Some ValidationError).
Proof.
  split.
  - intros Hw. split.
    + exact (proj1 (preserves_Create body f w Hw)).
    + exact (proj1 (preserves_Update item_id body now w Hw)).
  - intros Hb. destruct (breaks_bound_rejected _ Hb) as [Hc Hu].
    unfold Create, Update. rewrite Hc, Hu. repeat split.
Qed.

Lemma bounds_hold_and_guard_witness :
  Forall bounded (items (Create laptop laptop_keys (alone [] 0)).2)
  /\ Create (Body.Make (Given "Invalid Item") Absent (Given (-100 # 1)%Q) (Given 5%Z) Absent)
       laptop_keys shop
     = (HTTPException 422 "Unprocessable Entity", shop).
Proof.
  split.
  - apply (bounds_hold_and_guard laptop laptop_keys "id-1" 0 (alone [] 0)).
    split; [constructor | constructor].
  - apply (bounds_hold_and_guard
             (Body.Make (Given "Invalid Item") Absent (Given (-100 # 1)%Q) (Given 5%Z) Absent)
             laptop_keys "id-1" 0 shop).
    left. eexists. split; [reflexivity|]. intros H. discriminate H.
Defined.

(** ** Search and category filter *)

(** C1, at the failing inputs. The search text and the category are handed
    to the store as regular expressions: the search [l.ptop] selects the
    item named Laptop, whose name does not contain that text, and the
    category filter [Under $5] selects nothing although an item has exactly
    that category. *)
Theorem get_items_filters_are_patterns :
  (exists resp, (List 1 10 (Some "l.ptop") None shop2).1 = Success resp
                /\ Item.name <$> PaginatedItems.items resp = ["Laptop"])
  /\ contains_ci "Laptop" "l.ptop" = false
  /\ (exists resp, (List 1 10 None (Some "Under $5") shop2).1 = Success resp
                   /\ PaginatedItems.total resp = 0%Z
                   /\ PaginatedItems.items resp = [])
  /\ (exists it, (Get "id-2" shop2).1 = Success it
                 /\ Item.category it = Some "Under $5")
  /\ equals_ci "Under $5" "Under $5" = true.
Proof.
  split; [eexists; split; vm_compute; reflexivity|].
  split; [vm_compute; reflexivity|].
  split; [eexists; split; [vm_compute; reflexivity | split; reflexivity]|].
  split; [eexists; split; [vm_compute; reflexivity | reflexivity]|].
  vm_compute; reflexivity.
Qed.

Lemma plain_char a :
  Regex.metachar a = false ->
  Regex.beyond a = false /\ Ascii.eqb a "|" = false /\ Ascii.eqb a "." = false
  /\ Ascii.eqb a "^" = false /\ Ascii.eqb a "$" = false.
Proof.
  unfold Regex.metachar. cbn [list_ascii_of_string existsb].
  rewrite !orb_false_iff. tauto.
Qed.

Lemma plain_cons a s :
  plain (String a s) = true -> Regex.metachar a = false /\ plain s = true.
Proof.
  unfold plain. cbn [list_ascii_of_string forallb].
  rewrite andb_true_iff, negb_true_iff. tauto.
Qed.

Lemma parse_plain s t cur :
  plain s = true -> Regex.parse (s ++ t) cur = Regex.parse t (rev (lits s) ++ cur).
Proof.
  revert cur. induction s as [|a s IH]; intros cur Hp; [reflexivity|].
  apply plain_cons in Hp as [Ha Hs].
  destruct (plain_char a Ha) as (H1 & H2 & H3 & H4 & H5).
  change (String a s ++ t) with (String a (s ++ t)).
  cbn [Regex.parse]. rewrite H1, H2, H3, H4, H5.
  rewrite (IH _ Hs). unfold lits. cbn [list_ascii_of_string fmap list_fmap rev].
  by rewrite <- app_assoc.
Qed.

Lemma compile_plain s : plain s = true -> Regex.compile s = Some [lits s].
Proof.
  intros Hp. unfold Regex.compile.
  assert (E : s = s ++ "").
  { clear. induction s as [|a s IH]; [reflexivity|].
    change (String a s ++ "") with (String a (s ++ "")). by rewrite <- IH. }
  rewrite E at 1. rewrite (parse_plain s "" [] Hp). cbn [Regex.parse].
  by rewrite app_nil_r, rev_involutive.
Qed.

Lemma compile_anchored s :
  plain s = true ->
  Regex.compile ("^" ++ s ++ "$") = Some [Regex.Caret :: lits s ++ [Regex.Dollar]].
Proof.
  intros Hp. unfold Regex.compile.
  change ("^" ++ s ++ "$") with (String "^" (s ++ "$")).
  cbn [Regex.parse]. change (Regex.beyond "^") with false. change (Ascii.eqb "^" "|") with false.
  change (Ascii.eqb "^" ".") with false. change (Ascii.eqb "^" "^") with true.
  cbn match. rewrite (parse_plain s "$" [Regex.Caret] Hp).
  cbn [Regex.parse]. change (Regex.beyond "$") with false.
  change (Ascii.eqb "$" "|") with false. change (Ascii.eqb "$" ".") with false.
  change (Ascii.eqb "$" "^") with false. change (Ascii.eqb "$" "$") with true.
  cbn match. cbn [rev]. rewrite rev_app_distr, rev_involutive. reflexivity.
Qed.

Lemma match_here_lits s str b :
  Regex.match_here true (lits s) b str = prefix_of (casefold s) (casefold str).
Proof.
  revert str b. induction s as [|a s IH]; intros str b; [reflexivity|].
  unfold lits. cbn [list_ascii_of_string fmap list_fmap Regex.match_here casefold].
  destruct str as [|x str]; [reflexivity|].
  cbn [casefold prefix_of]. fold (lits s). by rewrite IH.
Qed.

Lemma search_from_lits s str b :
  Regex.search_from true [lits s] b str = substring_of (casefold s) (casefold str).
Proof.
  revert b. induction str as [|x str IH]; intros b.
  - cbn [Regex.search_from existsb casefold substring_of].
    by rewrite match_here_lits, !orb_false_r.
  - cbn [Regex.search_from existsb casefold substring_of].
    rewrite match_here_lits, orb_false_r, IH. reflexivity.
Qed.

Lemma match_here_exact s str b :
  one_line str = true ->
  Regex.match_here true (lits s ++ [Regex.Dollar]) b str
  = String.eqb (casefold s) (casefold str).
Proof.
  revert str b. induction s as [|a s IH]; intros str b Hl.
  - cbn [lits list_ascii_of_string fmap list_fmap app Regex.match_here casefold].
    rewrite andb_true_r. destruct str as [|x [|y str]]; try reflexivity.
    unfold one_line in Hl. cbn [list_ascii_of_string forallb] in Hl.
    rewrite andb_true_r, negb_true_iff in Hl. cbn [Regex.at_end casefold String.eqb].
    exact Hl.
  - unfold lits. cbn [list_ascii_of_string fmap list_fmap app Regex.match_here casefold].
    destruct str as [|x str]; [reflexivity|].
    unfold one_line in Hl. cbn [list_ascii_of_string forallb] in Hl.
    apply andb_true_iff in Hl as [_ Hl].
    fold (lits s). rewrite (IH str false Hl).
    cbn [casefold String.eqb Regex.same_char].
    destruct (Ascii.eqb (Regex.lower a) (Regex.lower x)); reflexivity.
Qed.

Lemma search_from_anchored_later bs' str :
  Regex.search_from true [Regex.Caret :: bs'] false str = false.
Proof. induction str as [|x str IH]; cbn; [reflexivity | exact IH]. Qed.

Lemma search_anchored s str :
  one_line str = true ->
  Regex.search true [Regex.Caret :: lits s ++ [Regex.Dollar]] str
  = String.eqb (casefold s) (casefold str).
Proof.
  intros Hl. unfold Regex.search.
  destruct str as [|x str].
  - cbn [Regex.search_from existsb Regex.match_here andb].
    rewrite (match_here_exact s "" true Hl), !orb_false_r. reflexivity.
  - cbn [Regex.search_from existsb Regex.match_here andb].
    rewrite (match_here_exact s _ true Hl), search_from_anchored_later, !orb_false_r.
    reflexivity.
Qed.

Lemma truthy_nonempty s : s ≠ "" -> truthy (VStr s) = true.
Proof.
  intros H. cbn. apply negb_true_iff. destruct (String.eqb s "") eqn:E; [|reflexivity].
  apply String.eqb_eq in E. contradiction.
Qed.

(** For a search text without metacharacters the filter is the
    case-insensitive containment of the text in the name. *)
Lemma search_plain_text (s name : string) (d : doc) :
  plain s = true -> s ≠ "" -> d !! "name" = Some (VStr name) ->
  filter_supported (build_filter (Some s) None) = true
  /\ matches (build_filter (Some s) None) d = contains_ci name s.
Proof.
  intros Hp Hs Hn. unfold build_filter. rewrite (truthy_nonempty s Hs).
  rewrite insert_empty. unfold filter_supported, matches.
  rewrite map_to_list_singleton. cbn [forallb fst snd cond_supported cond_holds].
  rewrite Hn, (compile_plain s Hp). split; [reflexivity|].
  rewrite andb_true_r. unfold Regex.search, contains_ci.
  change (caseless_option "i") with true. apply search_from_lits.
Qed.

(** For a category without metacharacters the filter is the
    case-insensitive equality with the item's category, when that holds a
    one-line text. *)
Lemma category_plain_text (c cat : string) (d : doc) :
  plain c = true -> c ≠ "" -> one_line cat = true ->
  d !! "category" = Some (VStr cat) ->
  filter_supported (build_filter None (Some c)) = true
  /\ matches (build_filter None (Some c)) d = equals_ci c cat.
Proof.
  intros Hp Hs Hl Hc. unfold build_filter. rewrite (truthy_nonempty c Hs).
  rewrite insert_empty. unfold filter_supported, matches.
  rewrite map_to_list_singleton. cbn [forallb fst snd cond_supported cond_holds].
  rewrite Hc, (compile_anchored c Hp). split; [reflexivity|].
  rewrite andb_true_r. change (caseless_option "i") with true.
  unfold equals_ci. by apply search_anchored.
Qed.

(** ** Statistics *)



(** For the empty collection the response has no [min_price] and no
    [max_price]. *)
Lemma statistics_empty_has_no_extremes :
  exists resp, (Statistics (alone [] 0)).1 = Success resp
               /\ resp !! "min_price" = None /\ resp !! "max_price" = None.
Proof.
  exists (<["total_items" := VInt 0]>
          (<["total_quantity" := VInt 0]>
          (<["total_value" := VInt 0]>
          (<["average_price" := VInt 0]>
          (<["categories" := VList []]> ∅))))).
  split; [reflexivity|]. split; reflexivity.
Qed.

Lemma matches_empty (d : doc) : matches ∅ d = true.
Proof. unfold matches. by rewrite map_to_list_empty. Qed.


Lemma filter_matches_empty (ds : list doc) : List.filter (matches ∅) ds = ds.
Proof.
  induction ds as [|d ds IH]; [reflexivity|]. cbn [List.filter].
  by rewrite matches_empty, IH.
Qed.


































(** Every document that [create_item] stores has the shape that the
    statistics assume. *)
Lemma stored_shaped (it : Item.t) (oid : value) :
  shaped (<["_id" := oid]> (stored it)) = true.
Proof. destruct it as [nm ds p q [c|] i ca ua]; reflexivity. Qed.

(** * Further properties of the handlers *)

(** ** Get *)

Lemma Get_404 i w :
  (forall d, d ∈ items (await w) -> ~ has_id i d) ->
  (Get i w).1 = HTTPException 404 (not_found i).
Proof.
  intros H. rewrite Get_unfold. apply find_by_id_None in H. by rewrite H.
Qed.

(** X1. Get never writes: whatever it answers, the world after the call is
    the world in which its single store call was served. It answers 404,
    with a detail that names the id, exactly when no document carries the
    id at that moment. *)
Theorem get_item_not_found (item_id : string) (w : world) :
  (Get item_id w).2 = await w
  /\ (error_of (Get item_id w).1 = Some NotFound
      <-> forall d, d ∈ items (await w) -> ~ has_id item_id d)
  /\ ((forall d, d ∈ items (await w) -> ~ has_id item_id d) ->
      (Get item_id w).1 = HTTPException 404 (not_found item_id)).
Proof.
  rewrite Get_unfold. rewrite <- find_by_id_None.
  destruct (List.find _ (items (await w))) as [d0|] eqn:E.
  - destruct (serialized (project d0)) as [d1|].
    + destruct (Item.validate d1 None); cbn;
        (split; [reflexivity|]); (split; [split|]); intros H; discriminate H.
    + cbn. split; [reflexivity|]. split; [split|]; intros H; discriminate H.
  - cbn. split; [reflexivity|]. split; [split|]; intros; reflexivity.
Qed.

Lemma get_item_not_found_witness :
  (Get "id-9" shop).1 = HTTPException 404 "Item with ID 'id-9' not found".
Proof.
  apply (get_item_not_found "id-9" shop).
  intros d Hd Hi. apply list_elem_of_singleton in Hd. subst d.
  vm_compute in Hi. discriminate Hi.
Defined.

(** ** Update: the order of the checks *)

Lemma update_item_missing i u now w :
  (forall d, d ∈ items (await w) -> ~ has_id i d) ->
  update_item i u now w = (HTTPException 404 (not_found i), await w).
Proof.
  intros H. unfold update_item, bind. rewrite find_one_by_id, falsy_found.
  apply find_by_id_None in H. rewrite H. reflexivity.
Qed.

(** X2. The checks of Update come in a fixed order. A body that breaks
    the update model is answered 422 before any store call, also for an id
    that no document carries; a body that passes the model, even one
    without any field, is answered 404 for such an id, and nothing is
    written. *)
Theorem update_item_check_order (item_id : string) (body : Body.t) (now : Z) (w : world) :
  (ItemUpdate.validate body = None ->
   Update item_id body now w = (HTTPException 422 "Unprocessable Entity", w))
  /\ (is_Some (ItemUpdate.validate body) ->
      (forall d, d ∈ items (await w) -> ~ has_id item_id d) ->
      Update item_id body now w = (HTTPException 404 (not_found item_id), await w)).
Proof.
  split.
  - intros H. unfold Update. rewrite H. reflexivity.
  - intros [u Hu] Hm. unfold Update, bind. rewrite Hu.
    rewrite (update_item_missing _ _ _ _ Hm). reflexivity.
Qed.

Lemma update_item_check_order_witness :
  Update "id-9" (Body.Make Absent Absent (Given (-1 # 1)%Q) Absent Absent) 2000 shop
  = (HTTPException 422 "Unprocessable Entity", shop)
  /\ Update "id-9" no_field 2000 shop
     = (HTTPException 404 "Item with ID 'id-9' not found", shop).
Proof.
  split.
  - apply (update_item_check_order "id-9"
             (Body.Make Absent Absent (Given (-1 # 1)%Q) Absent Absent) 2000 shop).
    reflexivity.
  - apply (update_item_check_order "id-9" no_field 2000 shop).
    + eexists. reflexivity.
    + intros d Hd Hi. apply list_elem_of_singleton in Hd. subst d.
      vm_compute in Hi. discriminate Hi.
Defined.

(** ** Delete, then Get *)

Lemma delete_first_length i (ds : list doc) :
  is_Some (List.find (matches (by_id i)) ds) ->
  length ds = S (length (delete_first (by_id i) ds).1).
Proof.
  induction ds as [|d ds IH]; cbn; [intros [x Hx]; discriminate Hx|].
  destruct (matches (by_id i) d); [reflexivity|].
  intros H. specialize (IH H).
  destruct (delete_first (by_id i) ds) as [r k]. cbn in *. by rewrite IH.
Qed.

Lemma find_other_after_delete o i (ds : list doc) :
  o ≠ i ->
  List.find (matches (by_id o)) (delete_first (by_id i) ds).1
  = List.find (matches (by_id o)) ds.
Proof.
  intros Hne. induction ds as [|d ds IH]; [reflexivity|]. cbn.
  destruct (matches (by_id i) d) eqn:E.
  - cbn. assert (Eo : matches (by_id o) d = false).
    { apply matches_by_id_false. apply matches_by_id in E.
      unfold has_id in *. congruence. }
    by rewrite Eo.
  - destruct (delete_first (by_id i) ds) as [r k]. cbn in *.
    destruct (matches (by_id o) d); [reflexivity | exact IH].
Qed.

(** X3. In a collection with unique ids and no concurrent request, Delete
    of an existing id succeeds with a message that names the id, removes
    exactly one document, makes a following Get on the id answer 404, and
    leaves the answer of Get on every other id as it was. *)
Theorem delete_then_get (item_id : string) (ds : list doc) (n : nat) :
  unique_ids ds ->
  (exists d, d ∈ ds /\ has_id item_id d) ->
  exists ds',
    Delete item_id (alone ds n)
    = (Success (MakeMessageResponse "Item deleted successfully"
                  (Some ("Item ID: " ++ item_id))), alone ds' n)
    /\ length ds = S (length ds')
    /\ (Get item_id (alone ds' n)).1 = HTTPException 404 (not_found item_id)
    /\ forall other, other ≠ item_id ->
         (Get other (alone ds' n)).1 = (Get other (alone ds n)).1.
Proof.
  intros Hu (d & Hd & Hi).
  exists (delete_first (by_id item_id) ds).1.
  assert (Hf : is_Some (List.find (matches (by_id item_id)) ds)).
  { destruct (List.find (matches (by_id item_id)) ds) eqn:E; [by eexists|].
    exfalso. rewrite find_by_id_None in E. exact (E d Hd Hi). }
  split; [|split; [|split]].
  - unfold Delete. rewrite delete_item_unfold. cbv zeta.
    rewrite !await_alone. cbn [items alone next_oid others].
    destruct Hf as [d0 Hd0]. rewrite Hd0.
    rewrite delete_first_count, Hd0. reflexivity.
  - by apply delete_first_length.
  - apply Get_404. rewrite await_alone.
    cbn [items alone]. by apply delete_first_gone.
  - intros other Hne. rewrite !Get_unfold, !await_alone. cbn [items alone].
    rewrite (find_other_after_delete other item_id ds Hne).
    destruct (List.find (matches (by_id other)) ds) as [d0|]; [|reflexivity].
    destruct (serialized (project d0)) as [d1|]; [|reflexivity].
    destruct (Item.validate d1 None); reflexivity.
Qed.

Lemma delete_then_get_witness :
  exists ds',
    Delete "id-1" (alone (items shop2) 2)
    = (Success (MakeMessageResponse "Item deleted successfully"
                  (Some "Item ID: id-1")), alone ds' 2)
    /\ length (items shop2) = S (length ds')
    /\ (Get "id-1" (alone ds' 2)).1 = HTTPException 404 "Item with ID 'id-1' not found".
Proof.
  destruct (delete_then_get "id-1" (items shop2) 2) as (ds' & H1 & H2 & H3 & _).
  - cbn. split; [|split; [|exact I]].
    + intros d Hd. apply list_elem_of_singleton in Hd. subst d.
      vm_compute. discriminate.
    + intros d Hd. by apply elem_of_nil in Hd.
  - eexists. split; [left | vm_compute; reflexivity].
  - exists ds'. split; [exact H1 | split; [exact H2 | exact H3]].
Defined.

(** ** Create *)






Lemma read_stored (it : Item.t) (oid : value) :
  fields_ok it -> read (<["_id" := oid]> (stored it)) = Some it.
Proof.
  intros Hok. unfold read.
  destruct (stored_reads_back it oid Hok) as (d1 & -> & ->). reflexivity.
Qed.


Lemma stored_has_id (it : Item.t) (oid : value) :
  has_id (Item.id it) (<["_id" := oid]> (stored it)).
Proof.
  unfold has_id, stored, Item.model_dump.
  rewrite !lookup_insert_ne by discriminate.
  by rewrite lookup_insert_eq.
Qed.

(** Create on a validated body, in any world. *)
Lemma Create_valid body f w ic :
  ItemCreate.validate body = Some ic ->
  fields_ok (item_of ic f)
  /\ Create body f w
     = (Success (item_of ic f),
        World (items (await w)
                 ++ [<["_id" := VObjectId (next_oid (await w))]> (stored (item_of ic f))])
              (S (next_oid (await w))) (others (await w))).
Proof.
  intros Hic. destruct (ItemCreate_validate_Some _ _ Hic) as (_ & _ & _ & Hok).
  split; [apply Hok|]. unfold Create. rewrite Hic. by apply create_item_ok.
Qed.






(** ** serialize_item *)

Lemma serialized_stored (it : Item.t) :
  serialized (stored it) = Some (Item.model_dump it).
Proof.
  unfold serialized, parse_field, stored.
  rewrite (lookup_insert_ne _ "updated_at" "created_at") by discriminate.
  rewrite lookup_insert_eq. cbn [is_str mbind option_bind].
  rewrite lookup_insert_ne by discriminate. rewrite lookup_insert_eq.
  cbn [is_str]. f_equal.
Qed.

Lemma parse_field_fixed k (d : doc) :
  is_str (d !! k) = false -> parse_field k d = Some d.
Proof. unfold parse_field. by intros ->. Qed.

Lemma revived_not_str (v : option value) :
  parses v = true -> is_str (revived v) = false.
Proof. by destruct v as [[]|]. Qed.

(** X6. serialize_item undoes the storage encoding and does nothing more:
    on the document that create_item hands to the store it gives back the
    dump of the item, timestamps as datetimes again; on a document it has
    already serialised it changes nothing; and whenever it succeeds, only
    the keys created_at and updated_at can differ from the input. *)
Theorem serialize_item_round_trip (it : Item.t) (d d' : doc) (w : world) :
  serialize_item (stored it) w = (Success (Item.model_dump it), w)
  /\ (serialize_item d w = (Success d', w) ->
      serialize_item d' w = (Success d', w)
      /\ forall k, k ≠ "created_at" -> k ≠ "updated_at" -> d' !! k = d !! k).
Proof.
  split.
  - by rewrite serialize_item_pure, serialized_stored.
  - rewrite !serialize_item_pure. intros H.
    destruct (serialized d) as [d1|] eqn:E; [|discriminate H].
    injection H as ->.
    destruct (serialized_parses _ _ E) as [Pc Pu].
    destruct (serialized_lookup _ _ E) as (Lc & Lu & Lk).
    split; [|exact Lk].
    unfold serialized.
    rewrite (parse_field_fixed "created_at" d') by (rewrite Lc; by apply revived_not_str).
    cbn [mbind option_bind].
    rewrite (parse_field_fixed "updated_at" d') by (rewrite Lu; by apply revived_not_str).
    reflexivity.
Qed.

Lemma serialize_item_round_trip_witness :
  let it := item_of (ItemCreate.Make "Laptop" None 5 1 None) laptop_keys in
  serialize_item (Item.model_dump it) shop = (Success (Item.model_dump it), shop).
Proof.
  intros it.
  destruct (serialize_item_round_trip it (stored it) (Item.model_dump it) shop)
    as [H0 H].
  destruct (H H0) as [H1 _]. exact H1.
Defined.

(** ** The ids of the collection *)

Lemma unique_ids_NoDup (ds : list doc) : unique_ids ds <-> NoDup (ids ds).
Proof.
  induction ds as [|d ds IH]; cbn.
  - split; [intros _; constructor | done].
  - rewrite NoDup_cons, <- IH. split.
    + intros [Hne Hu]. split; [|exact Hu].
      intros Hin. apply list_elem_of_fmap in Hin as (d' & E & Hd').
      exact (Hne d' Hd' (eq_sym E)).
    + intros [Hn Hu]. split; [|exact Hu].
      intros d' Hd' E. apply Hn. apply list_elem_of_fmap. exists d'. by split.
Qed.

Lemma ids_update_first f (g : doc -> doc) (ds : list doc) :
  (forall d, g d !! "id" = d !! "id") -> ids (update_first f g ds) = ids ds.
Proof.
  intros Hg. unfold ids. induction ds as [|d ds IH]; [reflexivity|]. cbn.
  destruct (matches f d); cbn; [by rewrite Hg | by rewrite IH].
Qed.

Lemma ids_delete_first f (ds : list doc) :
  NoDup (ids ds) -> NoDup (ids (delete_first f ds).1).
Proof.
  unfold ids. induction ds as [|d ds IH]; [done|]. cbn.
  rewrite NoDup_cons. intros [Hn Hu].
  destruct (matches f d); [exact Hu|].
  specialize (IH Hu).
  assert (Hsub : forall x, x ∈ (fun d0 : doc => d0 !! "id") <$> (delete_first f ds).1
                           -> x ∈ (fun d0 : doc => d0 !! "id") <$> ds).
  { clear. induction ds as [|d ds IH]; [done|]. cbn.
    destruct (matches f d).
    - cbn. intros x Hx. by right.
    - destruct (delete_first f ds) as [r k]. cbn in *.
      intros x [->|Hx]%elem_of_cons; [left | right; by apply IH]. }
  destruct (delete_first f ds) as [r k]. cbn in *.
  apply NoDup_cons. split; [|exact IH]. intros Hin. apply Hn. by apply Hsub.
Qed.

Lemma Update_items_alone i body now ds n :
  items (Update i body now (alone ds n)).2 = ds
  \/ exists u, ItemUpdate.validate body = Some u
               /\ items (Update i body now (alone ds n)).2
                  = update_first (by_id i) (fun d => set_doc u now ∪ d) ds.
Proof.
  unfold Update. destruct (ItemUpdate.validate body) as [u|]; [|by left].
  unfold bind. rewrite update_item_alone.
  destruct (List.find (matches (by_id i)) ds) as [d0|]; [|by left].
  destruct (nothing_set u); [by left|]. cbv zeta. right. exists u.
  split; [reflexivity|].
  destruct (serialized (project (set_doc u now ∪ d0))) as [d1|]; [|reflexivity].
  unfold respond_item. destruct (Item.validate d1 None); reflexivity.
Qed.

Lemma Delete_items_alone i ds n :
  items (Delete i (alone ds n)).2 = ds
  \/ items (Delete i (alone ds n)).2 = (delete_first (by_id i) ds).1.
Proof.
  unfold Delete. rewrite delete_item_unfold. cbv zeta. rewrite !await_alone.
  cbn [items alone]. destruct (List.find (matches (by_id i)) ds); [by right | by left].
Qed.

(** X7. Without concurrent requests the handlers keep the ids of the
    collection unique: Create with a generated id that no document
    carries, every Update and every Delete, successful or not, lead from a
    collection with unique ids to a collection with unique ids. Update
    changes no id at all. *)
Theorem unique_ids_kept (body : Body.t) (f : Item.factories) (item_id : string)
    (now : Z) (ds : list doc) (n : nat) :
  unique_ids ds ->
  ((forall d, d ∈ ds -> ~ has_id (Item.uuid4 f) d) ->
   unique_ids (items (Create body f (alone ds n)).2))
  /\ unique_ids (items (Update item_id body now (alone ds n)).2)
  /\ ids (items (Update item_id body now (alone ds n)).2) = ids ds
  /\ unique_ids (items (Delete item_id (alone ds n)).2).
Proof.
  intros Hu. split; [|split; [|split]].
  - intros Hfresh. unfold Create.
    destruct (ItemCreate.validate body) as [ic|] eqn:E; [|exact Hu].
    destruct (Create_valid body f (alone ds n) ic E) as [_ H].
    unfold Create in H. rewrite E in H. rewrite H. rewrite await_alone.
    cbn [items alone snd next_oid others].
    pose proof (stored_has_id (item_of ic f) (VObjectId n)) as Hid.
    cbn [item_of Item.id] in Hid.
    apply unique_ids_NoDup. unfold ids. rewrite fmap_app. apply NoDup_app.
    split; [by apply unique_ids_NoDup|]. split; [|apply NoDup_singleton].
    intros x Hx Hx'. apply list_elem_of_singleton in Hx'. subst x.
    apply list_elem_of_fmap in Hx as (d' & E' & Hd').
    apply (Hfresh d' Hd'). unfold has_id in *. congruence.
  - destruct (Update_items_alone item_id body now ds n) as [->|(u & _ & ->)]; [exact Hu|].
    apply unique_ids_NoDup. rewrite ids_update_first; [by apply unique_ids_NoDup|].
    intros d. apply set_doc_id.
  - destruct (Update_items_alone item_id body now ds n) as [->|(u & _ & ->)]; [reflexivity|].
    apply ids_update_first. intros d. apply set_doc_id.
  - destruct (Delete_items_alone item_id ds n) as [->| ->]; [exact Hu|].
    apply unique_ids_NoDup, ids_delete_first. by apply unique_ids_NoDup.
Qed.

Lemma unique_ids_kept_witness :
  let ds : list doc := [ <["id" := VStr "a"]> ∅ ] in
  unique_ids (items (Create cable cable_keys (alone ds 1)).2)
  /\ unique_ids (items (Delete "a" (alone ds 1)).2).
Proof.
  intros ds.
  assert (Hu : unique_ids ds).
  { split; [|exact I]. intros d Hd. by apply elem_of_nil in Hd. }
  destruct (unique_ids_kept cable cable_keys "a" 0 ds 1 Hu) as (H1 & _ & _ & H4).
  split; [|exact H4]. apply H1.
  intros d Hd Hi. apply list_elem_of_singleton in Hd. subst d.
  unfold has_id in Hi. rewrite lookup_insert_eq in Hi. discriminate Hi.
Defined.

(** ** Readable documents *)

Lemma update_first_Forall (P : doc -> Prop) f (g : doc -> doc) (l : list doc) :
  (forall d, P d -> P (g d)) -> Forall P l -> Forall P (update_first f g l).
Proof.
  intros Hg. induction 1 as [|d l Hd Hl IH]; cbn; [constructor|].
  destruct (matches f d); constructor; auto.
Qed.

Lemma delete_first_Forall (P : doc -> Prop) f (l : list doc) :
  Forall P l -> Forall P (delete_first f l).1.
Proof.
  induction 1 as [|d l Hd Hl IH]; cbn; [constructor|].
  destruct (matches f d); [exact Hl|].
  destruct (delete_first f l) as [r k]. cbn in *. by constructor.
Qed.

Lemma read_set_doc body u now (d : doc) (old : Item.t) :
  ItemUpdate.validate body = Some u -> read d = Some old ->
  read (set_doc u now ∪ d) = Some (patched old u now).
Proof.
  intros Hu. unfold read.
  destruct (serialized (project d)) as [d1|] eqn:Es; [|discriminate].
  destruct (Item.validate d1 None) as [it| |] eqn:Ev; try discriminate.
  intros [= ->].
  destruct (patched_reads body u now d d1 old Hu Es Ev) as (D1 & -> & ->).
  reflexivity.
Qed.

Lemma read_name (d : doc) (it : Item.t) :
  read d = Some it -> d !! "name" = Some (VStr (Item.name it)).
Proof.
  unfold read.
  destruct (serialized (project d)) as [d1|] eqn:Es; [|discriminate].
  destruct (Item.validate d1 None) as [x| |] eqn:Ev; try discriminate.
  intros [= ->]. apply validate_inv in Ev as (Vn & _).
  destruct (serialized_lookup _ _ Es) as (_ & _ & Lk).
  rewrite (Lk "name") in Vn by discriminate.
  unfold project in Vn. rewrite lookup_delete_ne in Vn by discriminate.
  destruct (d !! "name") as [[| s | | | | | |]|]; cbn in Vn; try discriminate Vn.
  apply guard_Valid in Vn as [-> _]. reflexivity.
Qed.

Lemma Create_readable body f ds n :
  Forall readable ds -> Forall readable (items (Create body f (alone ds n)).2).
Proof.
  intros Hr. unfold Create.
  destruct (ItemCreate.validate body) as [ic|] eqn:E; [|exact Hr].
  destruct (Create_valid body f (alone ds n) ic E) as [Hok H].
  unfold Create in H. rewrite E in H. rewrite H, await_alone.
  cbn [items alone snd]. apply Forall_app. split; [exact Hr|].
  constructor; [|constructor].
  unfold readable. rewrite (read_stored _ _ Hok). by eexists.
Qed.

Lemma shop2_readable : Forall readable (items shop2).
Proof.
  assert (Hr : Forall readable (@nil doc)) by constructor.
  pose proof (Create_readable laptop laptop_keys [] 0 Hr) as H1.
  exact (Create_readable cable cable_keys _ 1 H1).
Qed.

(** X8. Without concurrent requests every stored document stays readable:
    if each document of the collection passes serialisation and the
    response model, the same holds after any Create, Update or Delete,
    successful or not. On such a collection Get answers with the record or
    with 404, never with a server error. *)
Theorem readable_kept (body : Body.t) (f : Item.factories) (item_id : string)
    (now : Z) (ds : list doc) (n : nat) :
  Forall readable ds ->
  Forall readable (items (Create body f (alone ds n)).2)
  /\ Forall readable (items (Update item_id body now (alone ds n)).2)
  /\ Forall readable (items (Delete item_id (alone ds n)).2)
  /\ ((Get item_id (alone ds n)).1 = HTTPException 404 (not_found item_id)
      \/ exists it, (Get item_id (alone ds n)).1 = Success it).
Proof.
  intros Hr. split; [|split; [|split]].
  - by apply Create_readable.
  - destruct (Update_items_alone item_id body now ds n) as [->|(u & Hu & ->)];
      [exact Hr|].
    apply update_first_Forall; [|exact Hr].
    intros d [old Hold]. unfold readable.
    rewrite (read_set_doc body u now d old Hu Hold). by eexists.
  - destruct (Delete_items_alone item_id ds n) as [->| ->]; [exact Hr|].
    by apply delete_first_Forall.
  - rewrite Get_unfold, await_alone. cbn [items alone].
    destruct (List.find (matches (by_id item_id)) ds) as [d0|] eqn:E; [|by left].
    right. apply find_by_id_Some in E as [Hin _].
    rewrite Forall_forall in Hr. destruct (Hr d0 Hin) as [it Hit].
    unfold read in Hit.
    destruct (serialized (project d0)) as [d1|]; [|discriminate Hit].
    destruct (Item.validate d1 None) as [x| |]; try discriminate Hit.
    exists x. reflexivity.
Qed.

Lemma readable_kept_witness :
  Forall readable (items (Create cable cable_keys (alone [] 1)).2)
  /\ Forall readable
       (items (Update "id-2" (Body.Make Absent Absent Absent (Given 7%Z) Absent) 9000
                 (alone (items (Create cable cable_keys (alone [] 1)).2) 2)).2).
Proof.
  assert (Hr : Forall readable (@nil doc)) by constructor.
  destruct (readable_kept cable cable_keys "id-2" 0 [] 1 Hr) as (H1 & _).
  split; [exact H1|].
  destruct (readable_kept (Body.Make Absent Absent Absent (Given 7%Z) Absent)
              cable_keys "id-2" 9000
              (items (Create cable cable_keys (alone [] 1)).2) 2 H1) as (_ & H2 & _).
  exact H2.
Defined.

(** ** Pagination *)

Lemma read_all_readable (l : list doc) :
  Forall readable l -> exists its, read_all l = Some its.
Proof.
  induction 1 as [|d l [it Hd] Hl [its IH]]; [by eexists|].
  cbn. rewrite Hd, IH. by eexists.
Qed.

Lemma read_all_length (l : list doc) its :
  read_all l = Some its -> length its = length l.
Proof.
  revert its. induction l as [|d l IH]; intros its; cbn.
  - by intros [= <-].
  - destruct (read d); [|discriminate]. destruct (read_all l) as [r|]; [|discriminate].
    intros [= <-]. cbn. by rewrite (IH r).
Qed.

Lemma read_all_take (l : list doc) its k :
  read_all l = Some its -> read_all (take k l) = Some (take k its).
Proof.
  revert its k. induction l as [|d l IH]; intros its k; cbn.
  - intros [= <-]. by destruct k.
  - destruct (read d) as [it|] eqn:E; [|discriminate].
    destruct (read_all l) as [r|]; [|discriminate].
    intros [= <-]. destruct k as [|k]; [reflexivity|]. cbn.
    by rewrite E, (IH r k).
Qed.

Lemma read_all_drop (l : list doc) its k :
  read_all l = Some its -> read_all (drop k l) = Some (drop k its).
Proof.
  revert its k. induction l as [|d l IH]; intros its k; cbn.
  - intros [= <-]. by destruct k.
  - destruct (read d) as [it|] eqn:E; [|discriminate].
    destruct (read_all l) as [r|] eqn:Er; [|discriminate].
    intros [= <-]. destruct k as [|k]; cbn.
    + by rewrite E, Er.
    + by apply IH.
Qed.

(** The serialisation and validation of a page are the reading of its
    documents. *)
Lemma serialize_validate (l : list doc) its w :
  read_all l = Some its ->
  exists docs, serialize_all (project <$> l) w = (Success docs, w)
               /\ validate_items docs = Valid its.
Proof.
  revert its. induction l as [|d l IH]; intros its; cbn.
  - intros [= <-]. by exists [].
  - unfold read at 1.
    destruct (serialized (project d)) as [d1|] eqn:Es; [|discriminate].
    destruct (Item.validate d1 None) as [it| |] eqn:Ev; try discriminate.
    destruct (read_all l) as [r|]; [|discriminate].
    intros [= <-]. destruct (IH r eq_refl) as (docs & Hs & Hv).
    exists (d1 :: docs). unfold bind. rewrite serialize_item_pure, Es.
    change (list_fmap doc doc project l) with (project <$> l).
    rewrite Hs. split; [reflexivity|]. cbn. by rewrite Ev, Hv.
Qed.

(** A page of List when no other request runs and the selected documents
    are readable. *)
Lemma List_page_alone page ps s c ds n its :
  (1 <= page)%Z -> (1 <= ps <= 100)%Z ->
  filter_supported (build_filter s c) = true ->
  read_all (List.filter (matches (build_filter s c)) ds) = Some its ->
  List page ps s c (alone ds n)
  = (Success (PaginatedItems.Make
                (take (Z.to_nat ps) (drop (Z.to_nat ((page - 1) * ps)) its))
                (Z.of_nat (length its)) page ps
                (if (Z.of_nat (length its) >? 0)%Z
                 then (Z.of_nat (length its) + ps - 1) / ps else 1)%Z),
     alone ds n).
Proof.
  intros Hp Hs Hf Hr. unfold List. rewrite list_params_ok by assumption.
  unfold get_items, bind, count_documents, find_page. rewrite Hf, !await_alone.
  cbn [items alone].
  set (sel := List.filter (matches (build_filter s c)) ds) in *.
  rewrite <- fmap_drop, <- !fmap_take, take_take, Nat.min_id.
  destruct (serialize_validate (take (Z.to_nat ps) (drop (Z.to_nat ((page - 1) * ps)) sel))
              (take (Z.to_nat ps) (drop (Z.to_nat ((page - 1) * ps)) its)) (alone ds n))
    as (docs & Hd & Hv).
  { apply read_all_take. by apply read_all_drop. }
  rewrite Hd, Hv. unfold ret. rewrite (read_all_length _ _ Hr). reflexivity.
Qed.

Lemma chunks_concat {A} (ps n : nat) (l : list A) :
  (0 < ps)%nat -> (length l <= n * ps)%nat ->
  concat ((fun k => take ps (drop (k * ps) l)) <$> seq 0 n) = l.
Proof.
  intros Hps. revert l. induction n as [|n IH]; intros l Hl.
  - cbn in *. destruct l; [reflexivity | cbn in Hl; lia].
  - cbn [seq fmap list_fmap concat]. rewrite Nat.mul_0_l, drop_0.
    rewrite <- seq_shift.
    change (list_fmap nat (list A) (fun k => take ps (drop (k * ps) l)) (map S (seq 0 n)))
      with ((fun k => take ps (drop (k * ps) l)) <$> (S <$> seq 0 n)).
    rewrite <- list_fmap_compose.
    rewrite (list_fmap_ext _ (fun k => take ps (drop (k * ps) (drop ps l)))).
    2:{ intros i k _. cbn. rewrite drop_drop. reflexivity. }
    rewrite IH.
    + apply take_drop.
    + rewrite length_drop. cbn in Hl. lia.
Qed.

Lemma pages_cover (t ps : Z) :
  (0 <= t)%Z -> (1 <= ps)%Z ->
  (t <= (if (t >? 0)%Z then (t + ps - 1) / ps else 1) * ps)%Z.
Proof.
  intros Ht Hps. destruct (t >? 0)%Z eqn:E; [|lia].
  pose proof (Z.div_mod (t + ps - 1) ps ltac:(lia)) as Hd.
  pose proof (Z.mod_pos_bound (t + ps - 1) ps ltac:(lia)) as Hb.
  nia.
Qed.

(** X9. The pages of a listing partition the matches. With no concurrent
    request, a filter inside the modelled fragment and readable matching
    documents, page 1 reports as total the number of matches, and the
    pages 1 up to total_pages, put one after the other, are exactly the
    records of the matching documents in the order of the store: none is
    left out and none comes twice. *)
Theorem list_pages_partition (ps : Z) (s c : option string) (ds : list doc) (n : nat) :
  (1 <= ps <= 100)%Z ->
  filter_supported (build_filter s c) = true ->
  Forall readable (List.filter (matches (build_filter s c)) ds) ->
  exists its first,
    read_all (List.filter (matches (build_filter s c)) ds) = Some its
    /\ (List 1 ps s c (alone ds n)).1 = Success first
    /\ PaginatedItems.total first = Z.of_nat (length its)
    /\ pages ps s c (alone ds n) (Z.to_nat (PaginatedItems.total_pages first)) = its.
Proof.
  intros Hs Hf Hr. destruct (read_all_readable _ Hr) as [its Hits].
  exists its. eexists. split; [exact Hits|].
  rewrite (List_page_alone 1 ps s c ds n its ltac:(lia) Hs Hf Hits).
  split; [reflexivity|]. split; [reflexivity|].
  cbn [fst PaginatedItems.total_pages]. unfold pages.
  rewrite (list_fmap_ext _ (fun k => take (Z.to_nat ps) (drop (k * Z.to_nat ps) its))).
  2:{ intros i k _.
      rewrite (List_page_alone (Z.of_nat (S k)) ps s c ds n its ltac:(lia) Hs Hf Hits).
      cbn [fst page_of PaginatedItems.items]. do 2 f_equal.
      rewrite Z2Nat.inj_mul by lia. f_equal. lia. }
  apply chunks_concat; [lia|].
  pose proof (pages_cover (Z.of_nat (length its)) ps ltac:(lia) ltac:(lia)) as Hc.
  set (tp := (if (Z.of_nat (length its) >? 0)%Z then _ else _)) in *.
  assert (Htp : (0 <= tp)%Z).
  { subst tp. destruct (Z.of_nat (length its) >? 0)%Z; [|lia].
    apply Z.div_pos; lia. }
  apply Nat2Z.inj_le. rewrite Nat2Z.inj_mul, !Z2Nat.id by lia. exact Hc.
Qed.

Lemma list_pages_partition_witness :
  exists its first,
    read_all (List.filter (matches (build_filter None None)) (items shop2)) = Some its
    /\ (List 1 1 None None (alone (items shop2) 2)).1 = Success first
    /\ PaginatedItems.total first = Z.of_nat (length its)
    /\ pages 1 None None (alone (items shop2) 2)
         (Z.to_nat (PaginatedItems.total_pages first)) = its.
Proof.
  apply (list_pages_partition 1 None None (items shop2) 2).
  - lia.
  - reflexivity.
  - rewrite filter_matches_empty. exact shop2_readable.
Defined.

Lemma serialize_all_length l w docs w' :
  serialize_all l w = (Success docs, w') -> length docs = length l.
Proof.
  revert docs w'. induction l as [|d l IH]; intros docs w'; cbn.
  - unfold ret. by intros [= <- _].
  - unfold bind. rewrite serialize_item_pure.
    destruct (serialized d) as [d1|]; [|discriminate].
    destruct (serialize_all l w) as [[r| |] w1] eqn:E; try discriminate.
    unfold ret. intros [= <- _]. cbn. by rewrite (IH r w1).
Qed.

Lemma validate_items_length docs its :
  validate_items docs = Valid its -> length its = length docs.
Proof.
  revert its. induction docs as [|d docs IH]; intros its; cbn.
  - by intros [= <-].
  - destruct (Item.validate d None); try discriminate. cbn.
    destruct (validate_items docs) as [r| |]; try discriminate. cbn.
    intros [= <-]. cbn. by rewrite (IH r).
Qed.

(** X10. Whatever the concurrent requests do, a successful List response
    holds at most page_size items, echoes the requested page and
    page_size, which are within their bounds, and reports at least one
    page. *)
Theorem list_page_bound (page ps : Z) (s c : option string) (w : world)
    (resp : PaginatedItems.t) :
  (List page ps s c w).1 = Success resp ->
  (length (PaginatedItems.items resp) <= Z.to_nat ps)%nat
  /\ PaginatedItems.page resp = page /\ PaginatedItems.page_size resp = ps
  /\ (1 <= page)%Z /\ (1 <= ps <= 100)%Z
  /\ (1 <= PaginatedItems.total_pages resp)%Z.
Proof.
  unfold List. intros H.
  destruct ((1 <=? page) && (1 <=? ps) && (ps <=? 100))%Z eqn:G; [|discriminate H].
  apply andb_true_iff in G as [G G3]. apply andb_true_iff in G as [G1 G2].
  apply Z.leb_le in G1, G2, G3.
  destruct (get_items page ps s c w) as [o w'] eqn:E. cbn in H. subst o.
  apply get_items_success in E as (_ & Ht & Hp & Hs & Htp & _ & docs & Hd & Hv).
  split; [|split; [exact Hp | split; [exact Hs | split; [exact G1 | split; [lia|]]]]].
  - rewrite (validate_items_length _ _ Hv).
    destruct (serialize_all _ w') as [o w''] eqn:E. cbn in Hd. subst o.
    rewrite (serialize_all_length _ _ _ _ E), !length_take. lia.
  - rewrite Htp. destruct (PaginatedItems.total resp >? 0)%Z eqn:Eg; [|lia].
    apply Z.gtb_lt in Eg. apply Z.div_le_lower_bound; lia.
Qed.

Lemma list_page_bound_witness :
  exists resp, (List 1 1 None None shop2).1 = Success resp
               /\ (length (PaginatedItems.items resp) <= 1)%nat.
Proof.
  eexists. split; [vm_compute; reflexivity|].
  apply (list_page_bound 1 1 None None shop2). vm_compute. reflexivity.
Defined.

(** ** Plain search texts *)

Lemma read_all_filter (P : Item.t -> bool) (f : query_filter) (ds : list doc) all :
  (forall d it, read d = Some it -> matches f d = P it) ->
  read_all ds = Some all ->
  read_all (List.filter (matches f) ds) = Some (List.filter P all).
Proof.
  intros HP. revert all. induction ds as [|d ds IH]; intros all; cbn.
  - by intros [= <-].
  - destruct (read d) as [it|] eqn:E; [|discriminate].
    destruct (read_all ds) as [r|]; [|discriminate].
    intros [= <-]. cbn. rewrite (HP d it E).
    destruct (P it); cbn; [by rewrite E, (IH r) | by apply IH].
Qed.

(** X11. For a search text without regular-expression metacharacters,
    with no concurrent request and a readable collection, List selects
    exactly the records whose name contains the text case-insensitively:
    total is their number, the page is the corresponding slice of them,
    and the name of every returned item contains the text. An empty
    search text, like an empty category, is treated as not supplied. *)
Theorem list_plain_search (page ps : Z) (s : string) (ds : list doc) (n : nat)
    (all : list Item.t) :
  ((1 <= page)%Z -> (1 <= ps <= 100)%Z -> plain s = true -> s ≠ "" ->
   read_all ds = Some all ->
   let hits := List.filter (fun it => contains_ci (Item.name it) s) all in
   exists resp,
     List page ps (Some s) None (alone ds n) = (Success resp, alone ds n)
     /\ PaginatedItems.total resp = Z.of_nat (length hits)
     /\ PaginatedItems.items resp
        = take (Z.to_nat ps) (drop (Z.to_nat ((page - 1) * ps)) hits)
     /\ Forall (fun it => contains_ci (Item.name it) s = true)
          (PaginatedItems.items resp))
  /\ (forall c w, List page ps (Some "") c w = List page ps None c w)
  /\ (forall t w, List page ps t (Some "") w = List page ps t None w).
Proof.
  split; [|split; reflexivity].
  intros Hp Hs Hpl Hne Hall hits.
  assert (Hm : forall d it, read d = Some it ->
                 matches (build_filter (Some s) None) d = contains_ci (Item.name it) s).
  { intros d it Hr. apply (search_plain_text s (Item.name it) d Hpl Hne).
    by apply read_name. }
  pose proof (read_all_filter _ _ ds all Hm Hall) as Hsel. fold hits in Hsel.
  assert (Hf : filter_supported (build_filter (Some s) None) = true).
  { unfold build_filter. rewrite (truthy_nonempty s Hne), insert_empty.
    unfold filter_supported. rewrite map_to_list_singleton. cbn [forallb snd cond_supported].
    by rewrite (compile_plain s Hpl). }
  eexists. split; [exact (List_page_alone page ps (Some s) None ds n hits Hp Hs Hf Hsel)|].
  cbn [PaginatedItems.total PaginatedItems.items].
  split; [reflexivity|]. split; [reflexivity|].
  apply Forall_forall. intros it Hit.
  apply subseteq_take, subseteq_drop in Hit.
  subst hits. apply list_elem_of_In, filter_In in Hit. tauto.
Qed.

Lemma list_plain_search_witness :
  exists resp,
    List 1 10 (Some "CABLE") None (alone (items shop2) 2)
    = (Success resp, alone (items shop2) 2)
    /\ PaginatedItems.total resp = 1%Z
    /\ Forall (fun it => contains_ci (Item.name it) "CABLE" = true)
         (PaginatedItems.items resp).
Proof.
  destruct (list_plain_search 1 10 "CABLE" (items shop2) 2
              [item_of (ItemCreate.Make "Laptop" (Some "High-performance laptop")
                          (99999 # 100) 10 (Some "Electronics")) laptop_keys;
               item_of (ItemCreate.Make "USB cable" None (499 # 100) 3
                          (Some "Under $5")) cable_keys]) as [H _].
  destruct H as (resp & H1 & H2 & _ & H4);
    [lia | lia | reflexivity | discriminate | vm_compute; reflexivity |].
  exists resp. split; [exact H1|]. split; [exact H2 | exact H4].
Defined.

(** ** The test driver *)

Lemma logged_counts (results : list bool) (self : Tester.t) :
  Tester.tests_run (Tester.logged results self)
  = (Tester.tests_run self + Z.of_nat (length results))%Z
  /\ Tester.tests_passed (Tester.logged results self)
     = (Tester.tests_passed self
        + Z.of_nat (length (List.filter (fun b : bool => b) results)))%Z.
Proof.
  revert self. induction results as [|b results IH]; intros self.
  - cbn. split; lia.
  - unfold Tester.logged in *. cbn [fold_left].
    destruct (IH (Tester.log_result self b).1) as [H1 H2]. rewrite H1, H2.
    destruct b; cbn; split; lia.
Qed.

(** X12. The driver counts every logged result and every success, so the
    passed tests never outnumber the tests run, and after any sequence of
    results logged from a fresh driver the status is PASS exactly when
    every result was a success. *)
Theorem tester_status (results : list bool) :
  let self := Tester.logged results Tester.init in
  Tester.tests_run self = Z.of_nat (length results)
  /\ (0 <= Tester.tests_passed self <= Tester.tests_run self)%Z
  /\ (Tester.status self = "PASS" <-> forallb (fun b : bool => b) results = true).
Proof.
  intros self. destruct (logged_counts results Tester.init) as [H1 H2].
  fold self in H1, H2. cbn in H1, H2. rewrite Z.add_0_l in H1, H2.
  assert (Hle : (length (List.filter (fun b : bool => b) results) <= length results)%nat)
    by apply List.filter_length_le.
  assert (Hall : forallb (fun b : bool => b) results = true
                 <-> length (List.filter (fun b : bool => b) results) = length results).
  { clear. induction results as [|b r IH]; cbn; [tauto|].
    pose proof (List.filter_length_le (fun b : bool => b) r) as Hle.
    destruct b; cbn; [rewrite IH; lia|]. split; [discriminate | lia]. }
  split; [exact H1|]. split; [lia|].
  unfold Tester.status. rewrite H1, H2, Hall.
  destruct (Z.eqb_spec (Z.of_nat (length (List.filter (fun b : bool => b) results)))
              (Z.of_nat (length results))) as [E|E].
  - split; [intros _; lia | reflexivity].
  - split; [discriminate | intros E'; lia].
Qed.





(** ** Statistics and List *)




(** ** Update under a concurrent delete *)

(** X15. Update reads the record again after writing it. When the
    existence check finds the id, the update carries a value, and a
    concurrent request has removed the id before that second read, Update
    answers with status 500, an internal error, and not with the
    record. *)
Theorem update_item_lost_record (item_id : string) (body : Body.t) (now : Z) (w : world)
    (u : ItemUpdate.t) :
  ItemUpdate.validate body = Some u -> nothing_set u = false ->
  (exists d, d ∈ items (await w) /\ has_id item_id d) ->
  let written :=
    World (update_first (by_id item_id) (fun d => set_doc u now ∪ d)
             (items (await (await w))))
          (next_oid (await (await w))) (others (await (await w))) in
  (forall d, d ∈ items (await written) -> ~ has_id item_id d) ->
  Update item_id body now w = (HTTPException 500 "AttributeError", await written)
  /\ error_of (Update item_id body now w).1 = Some InternalError.
Proof.
  intros Hu Hn (d & Hd & Hi) written Hgone.
  assert (E : Update item_id body now w
              = (HTTPException 500 "AttributeError", await written)).
  { unfold Update, bind. rewrite Hu. unfold update_item, bind.
    rewrite find_one_by_id, falsy_found.
    destruct (List.find (matches (by_id item_id)) (items (await w))) eqn:Ef.
    2:{ exfalso. rewrite find_by_id_None in Ef. exact (Ef d Hd Hi). }
    fold (update_data u). rewrite update_data_empty, Hn.
    unfold update_one. rewrite filter_supported_by_id.
    fold (set_doc u now). fold written.
    rewrite find_one_by_id.
    apply find_by_id_None in Hgone. rewrite Hgone. reflexivity. }
  rewrite E. split; reflexivity.
Qed.

Lemma update_item_lost_record_witness :
  let w := World [ <["id" := VStr "a"]> ∅ ] 1
             [fun ds => ds; fun ds => ds; fun _ => []] in
  error_of (Update "a" (Body.Make Absent Absent Absent (Given 7%Z) Absent) 50 w).1
  = Some InternalError.
Proof.
  intros w.
  apply (update_item_lost_record "a" (Body.Make Absent Absent Absent (Given 7%Z) Absent)
           50 w (ItemUpdate.Make None None None (Some 7%Z) None)).
  - reflexivity.
  - reflexivity.
  - eexists. split; [left | reflexivity].
  - intros d Hd. by apply elem_of_nil in Hd.
Defined.
